(** * WhisperXService: a shallow embedding of [whisperx_service.py]

    The service object, its four operations ([load_model],
    [transcribe_audio], [_get_optimal_batch_size], [cleanup_models]) and the
    pure text assembler [_extract_text] are embedded below.

    - Python [str] values are [string]s; an [ascii] stands for the code point
      of the same number (U+0000 .. U+00FF).
    - The external libraries (torch, whisperx, os, gc) are a record of
      fallible, stateful capabilities over an abstract world [W].
    - A method body is a computation in a state-and-exception monad whose
      state survives a raised exception, as attribute writes do in Python.
    - Logging is a side channel and is left out; every other call to an
      external library is recorded in a trace, in call order. *)

From Stdlib Require Import String Ascii List Bool ZArith NArith Lia.
Import ListNotations.
Local Open Scope string_scope.

(** ** Python strings *)

Module PyStr.

(** [str.isspace] on one code point below U+0100: TAB..CR, FS..US, SPACE,
    NEL and NBSP. *)
Definition isspace (c : ascii) : bool :=
  let n := N_of_ascii c in
  (((9 <=? n) && (n <=? 13)) || ((28 <=? n) && (n <=? 32))
   || (n =? 133) || (n =? 160))%N.

(** Truth value of a [str]: non-empty. *)
Definition truthy (s : string) : bool :=
  match s with
  | EmptyString => false
  | String _ _ => true
  end.

Fixpoint lstrip (s : string) : string :=
  match s with
  | EmptyString => EmptyString
  | String c s' => if isspace c then lstrip s' else s
  end.

Fixpoint rstrip (s : string) : string :=
  match s with
  | EmptyString => EmptyString
  | String c s' =>
      match rstrip s' with
      | EmptyString => if isspace c then EmptyString else String c EmptyString
      | r => String c r
      end
  end.

(** [s.strip()] with no argument. *)
Definition strip (s : string) : string := lstrip (rstrip s).

(** [s.startswith(prefixes)] with a tuple of prefixes. *)
Definition startswith (prefixes : list string) (s : string) : bool :=
  existsb (fun p => prefix p s) prefixes.

(** The string begins with a whitespace character. *)
Definition lead_ws (s : string) : bool :=
  match s with
  | EmptyString => false
  | String c _ => isspace c
  end.

(** The string ends with a whitespace character. *)
Fixpoint trail_ws (s : string) : bool :=
  match s with
  | EmptyString => false
  | String c EmptyString => isspace c
  | String _ s' => trail_ws s'
  end.

End PyStr.

(** ** Segments and [_extract_text] *)

(** A segment dictionary as [_extract_text] reads it: the value under the
    key ["text"], or [None] when the key is absent.  Time stamps are never
    read. *)
Record Segment := mkSegment { seg_text : option string }.

Definition PUNCTUATION : list string := ["."; ","; "!"; "?"; ";"; ":"].

(** One pass of the loop body of [_extract_text], from [full_text] before
    the pass to [full_text] after it. *)
Definition extract_step (full_text : string) (segment : Segment) : string :=
  match seg_text segment with
  | Some raw =>
      if PyStr.truthy raw then
        let text := PyStr.strip raw in
        if PyStr.truthy text then
          let full_text :=
            if PyStr.truthy full_text
               && negb (PyStr.startswith PUNCTUATION text)
            then full_text ++ " " else full_text in
          full_text ++ text
        else full_text
      else full_text
  | None => full_text
  end.

Definition _extract_text (segments : list Segment) : string :=
  PyStr.strip (fold_left extract_step segments "").

(** *** The assembler as the specification words it *)

(** The non-empty trimmed segment texts, in order. *)
Definition trimmed_texts (segments : list Segment) : list string :=
  filter PyStr.truthy
    (flat_map (fun sg => match seg_text sg with
                         | Some raw => [PyStr.strip raw]
                         | None => []
                         end) segments).

(** What is put in front of a piece that is not the first: nothing when the
    piece starts with one of [. , ! ? ; :], one space otherwise. *)
Definition separator (next : string) : string :=
  match next with
  | String c _ =>
      if existsb (Ascii.eqb c) ["."; ","; "!"; "?"; ";"; ":"]%char
      then "" else " "
  | EmptyString => " "
  end.

Definition join_rest (pieces : list string) : string :=
  String.concat "" (map (fun q => separator q ++ q) pieces).

Definition assemble_spec (pieces : list string) : string :=
  match pieces with
  | [] => ""
  | p :: rest => p ++ join_rest rest
  end.

(** A piece that can stand in the output: non-empty, no whitespace at
    either end. *)
Definition tight (s : string) : Prop :=
  s <> "" /\ PyStr.lead_ws s = false /\ PyStr.trail_ws s = false.

(** ** Values exchanged with the external libraries *)

(** [self.device] holds one of the strings ["cuda"], ["mps"], ["cpu"]. *)
Inductive Device := cuda | mps | cpu.

Definition Device_eqb (a b : Device) : bool :=
  match a, b with
  | cuda, cuda | mps, mps | cpu, cpu => true
  | _, _ => false
  end.

(** [self.device == "name"]; the attribute is [None] until [_setup_device]
    has run. *)
Definition device_is (d : option Device) (name : Device) : bool :=
  match d with
  | Some x => Device_eqb x name
  | None => false
  end.

(** The object returned by [whisperx.load_model]: an identity and the
    attribute [model_size] when the object has one. *)
Record ModelHandle := mkModel {
  model_id : N;
  model_size_attr : option string
}.

(** The alignment model returned by [whisperx.load_align_model]. *)
Record AlignHandle := mkAlign { align_id : N }.

(** The alignment metadata dictionary. *)
Record Metadata := mkMetadata { meta_items : list (string * string) }.

(** The sample array returned by [whisperx.load_audio]; only [len(audio)]
    is read here. *)
Record Audio := mkAudio { audio_len : nat }.

(** The dictionary returned by [model.transcribe] and by [whisperx.align]:
    the values under ["segments"] and ["language"], [None] for an absent
    key. *)
Record RawResult := mkRaw {
  raw_segments : option (list Segment);
  raw_language : option string
}.

(** Exceptions: [ImportError] and every other subclass of [Exception],
    with [str(e)]. *)
Inductive PyExc :=
| ImportError (msg : string)
| OtherException (msg : string).

Definition exc_str (e : PyExc) : string :=
  match e with
  | ImportError m => m
  | OtherException m => m
  end.

(** The dictionary returned by [transcribe_audio]. *)
Inductive TranscriptionResult :=
| Failed (error : string)
| Succeeded (text : string) (segments : nat) (language : string)
            (model_size : string) (dev : option Device).

Definition success (r : TranscriptionResult) : bool :=
  match r with
  | Failed _ => false
  | Succeeded _ _ _ _ _ => true
  end.

Definition error (r : TranscriptionResult) : option string :=
  match r with
  | Failed e => Some e
  | Succeeded _ _ _ _ _ => None
  end.

(** Calls to the external libraries, as recorded in the trace. *)
Inductive Event :=
| ImportTorch
| ImportWhisperx
| CudaIsAvailable
| CudaGetDeviceName
| HasattrBackendsMps
| MpsIsAvailable
| HasattrMpsEmptyCache
| CudaEmptyCache
| CudaSynchronize
| MpsEmptyCache
| CudaTotalMemory
| GcCollect
| PathExists (path : string)
| PathGetsize (path : string)
| LoadModel (model_size : string) (dev : option Device)
| LoadAlignModel (language_code : string) (dev : option Device)
| LoadAudio (path : string)
| Transcribe (batch_size : Z)
| Align (dev : option Device).

(** ** The service object and the machine state *)

Record Service := mkService {
  model : option ModelHandle;
  align_model : option AlignHandle;
  metadata : option Metadata;
  device : option Device
}.

(** EMPTY: no main model, no alignment model, no metadata. *)
Definition is_empty (s : Service) : bool :=
  match model s, align_model s, metadata s with
  | None, None, None => true
  | _, _, _ => false
  end.

(** READY: a main model is held. *)
Definition is_ready (s : Service) : bool :=
  match model s with Some _ => true | None => false end.

(** An outcome of a call: a raised exception or a returned value. *)
Definition Outcome (A : Type) : Type := (PyExc + A)%type.

(** The external capabilities.  Each one reads and updates the world and
    either raises or returns. *)
Record Caps (W : Type) := mkCaps {
  torch_import : W -> Outcome unit * W;
  whisperx_import : W -> Outcome unit * W;
  cuda_is_available : W -> Outcome bool * W;
  cuda_get_device_name : W -> Outcome string * W;
  hasattr_backends_mps : W -> Outcome bool * W;
  mps_is_available : W -> Outcome bool * W;
  hasattr_mps_empty_cache : W -> Outcome bool * W;
  cuda_empty_cache : W -> Outcome unit * W;
  cuda_synchronize : W -> Outcome unit * W;
  mps_empty_cache : W -> Outcome unit * W;
  cuda_total_memory : W -> Outcome Z * W;
  gc_collect : W -> Outcome unit * W;
  os_path_exists : string -> W -> Outcome bool * W;
  os_path_getsize : string -> W -> Outcome Z * W;
  whisperx_load_model :
    string -> option Device -> W -> Outcome ModelHandle * W;
  whisperx_load_align_model :
    string -> option Device -> W -> Outcome (AlignHandle * Metadata) * W;
  whisperx_load_audio : string -> W -> Outcome (option Audio) * W;
  model_transcribe : ModelHandle -> Audio -> Z -> W -> Outcome RawResult * W;
  whisperx_align :
    list Segment -> AlignHandle -> Metadata -> Audio -> option Device ->
    W -> Outcome RawResult * W
}.

Arguments torch_import {W}.
Arguments whisperx_import {W}.
Arguments cuda_is_available {W}.
Arguments cuda_get_device_name {W}.
Arguments hasattr_backends_mps {W}.
Arguments mps_is_available {W}.
Arguments hasattr_mps_empty_cache {W}.
Arguments cuda_empty_cache {W}.
Arguments cuda_synchronize {W}.
Arguments mps_empty_cache {W}.
Arguments cuda_total_memory {W}.
Arguments gc_collect {W}.
Arguments os_path_exists {W}.
Arguments os_path_getsize {W}.
Arguments whisperx_load_model {W}.
Arguments whisperx_load_align_model {W}.
Arguments whisperx_load_audio {W}.
Arguments model_transcribe {W}.
Arguments whisperx_align {W}.

Record Sys (W : Type) := mkSys {
  self : Service;
  world : W;
  trace : list Event
}.

Arguments mkSys {W}.
Arguments self {W}.
Arguments world {W}.
Arguments trace {W}.

(** ** The monad of method bodies *)

Definition Py (W A : Type) : Type := Sys W -> Outcome A * Sys W.

Definition ret {W A} (a : A) : Py W A := fun st => (inr a, st).

Definition bind {W A B} (c : Py W A) (k : A -> Py W B) : Py W B :=
  fun st =>
    match c st with
    | (inr a, st') => k a st'
    | (inl e, st') => (inl e, st')
    end.

Definition raise {W A} (e : PyExc) : Py W A := fun st => (inl e, st).

(** [try: c  except Exception as e: handler e]. *)
Definition try_except {W A} (c : Py W A) (handler : PyExc -> Py W A)
  : Py W A :=
  fun st =>
    match c st with
    | (inr a, st') => (inr a, st')
    | (inl e, st') => handler e st'
    end.

Definition get_self {W} : Py W Service := fun st => (inr (self st), st).

Definition put_self {W} (s : Service) : Py W unit :=
  fun st => (inr tt, mkSys s (world st) (trace st)).

(** The state after one capability call. *)
Definition after {W} (st : Sys W) (ev : Event) (w : W) : Sys W :=
  mkSys (self st) w (trace st ++ [ev]).

(** Call a capability: record the call, then let the world answer. *)
Definition call {W A} (ev : Event) (cap : W -> Outcome A * W) : Py W A :=
  fun st => let (r, w) := cap (world st) in (r, after st ev w).

Declare Scope py_scope.
Delimit Scope py_scope with py.
Notation "x <- c ;; k" := (bind c (fun x => k))
  (at level 61, c at next level, right associativity) : py_scope.
Notation "c ;;; k" := (bind c (fun _ => k))
  (at level 61, right associativity) : py_scope.

(** ** The methods of [WhisperXService] *)

(** Truth value of an attribute holding an object or [None]. *)
Definition obj_truthy {A} (o : option A) : bool :=
  match o with Some _ => true | None => false end.

(** Truth value of an attribute holding a dictionary or [None]. *)
Definition dict_truthy (o : option Metadata) : bool :=
  match o with
  | Some md => match meta_items md with [] => false | _ :: _ => true end
  | None => false
  end.

(** [not result.get("segments")]. *)
Definition no_segments (r : RawResult) : bool :=
  match raw_segments r with
  | Some (_ :: _) => false
  | Some [] | None => true
  end.

Section Methods.
Context {W : Type} (caps : Caps W).
Local Open Scope py_scope.

Definition set_model (m : option ModelHandle) : Py W unit :=
  s <- get_self ;;
  put_self (mkService m (align_model s) (metadata s) (device s)).

Definition set_align_model (a : option AlignHandle) : Py W unit :=
  s <- get_self ;;
  put_self (mkService (model s) a (metadata s) (device s)).

Definition set_metadata (md : option Metadata) : Py W unit :=
  s <- get_self ;;
  put_self (mkService (model s) (align_model s) md (device s)).

Definition set_device (d : option Device) : Py W unit :=
  s <- get_self ;;
  put_self (mkService (model s) (align_model s) (metadata s) d).

(** [_setup_device]: only an [ImportError] is handled; any other exception
    leaves the method.  [get_device_name] is called while the log line of
    the CUDA branch is formatted. *)
Definition _setup_device : Py W unit :=
  try_except
    (call ImportTorch (torch_import caps) ;;;
     avail <- call CudaIsAvailable (cuda_is_available caps) ;;
     if avail then
       set_device (Some cuda) ;;;
       _ <- call CudaGetDeviceName (cuda_get_device_name caps) ;;
       ret tt
     else
       has <- call HasattrBackendsMps (hasattr_backends_mps caps) ;;
       mps_ok <- (if has then call MpsIsAvailable (mps_is_available caps)
                  else ret false) ;;
       if mps_ok then set_device (Some mps) else set_device (Some cpu))
    (fun e =>
       match e with
       | ImportError _ => set_device (Some cpu)
       | OtherException _ => raise e
       end).

Definition __init__ : Py W unit :=
  put_self (mkService None None None None) ;;;
  _setup_device.

(** [load_model(model_size)]. *)
Definition load_model (model_size : string) : Py W bool :=
  try_except
    (call ImportWhisperx (whisperx_import caps) ;;;
     s <- get_self ;;
     let device_to_use :=
       if device_is (device s) mps then Some cpu else device s in
     m <- call (LoadModel model_size device_to_use)
               (whisperx_load_model caps model_size device_to_use) ;;
     set_model (Some m) ;;;
     try_except
       (am <- call (LoadAlignModel "en" device_to_use)
                   (whisperx_load_align_model caps "en" device_to_use) ;;
        set_align_model (Some (fst am)) ;;;
        set_metadata (Some (snd am)))
       (fun _ =>
          set_align_model None ;;;
          set_metadata None) ;;;
     ret true)
    (fun _ => ret false).

(** [_get_optimal_batch_size].  [total_memory] is an integer number of
    bytes (a [size_t], below [2^64]); [total_memory / 1e9 > 8] holds
    exactly when [total_memory > 8 * 10^9], and likewise for [4]: the
    conversion to a float and the rounded division are monotone, [8.0] and
    [4.0] are exact, and one byte more than [8 * 10^9] already divides to a
    float above [8.0].  The bare [except:] catches everything. *)
Definition _get_optimal_batch_size : Py W Z :=
  s <- get_self ;;
  if device_is (device s) cuda then
    try_except
      (call ImportTorch (torch_import caps) ;;;
       total_memory <- call CudaTotalMemory (cuda_total_memory caps) ;;
       if (8 * 10 ^ 9 <? total_memory)%Z then ret 32%Z
       else if (4 * 10 ^ 9 <? total_memory)%Z then ret 16%Z
       else ret 8%Z)
      (fun _ => ret 16%Z)
  else if device_is (device s) mps then ret 8%Z
  else ret 4%Z.

(** [result["segments"]]: a [KeyError] when the key is absent. *)
Definition get_segments (r : RawResult) : Py W (list Segment) :=
  match raw_segments r with
  | Some segs => ret segs
  | None => raise (OtherException "'segments'")
  end.

(** The [try] block of [transcribe_audio]; a [return] inside it is a
    returned value. *)
Definition transcribe_body (audio_file_path : string)
  : Py W TranscriptionResult :=
  found <- call (PathExists audio_file_path)
                (os_path_exists caps audio_file_path) ;;
  if negb found then
    ret (Failed ("Audio file not found: " ++ audio_file_path))
  else
  file_size <- call (PathGetsize audio_file_path)
                    (os_path_getsize caps audio_file_path) ;;
  if (file_size =? 0)%Z then ret (Failed "Audio file is empty") else
  s <- get_self ;;
  loaded <- (if negb (obj_truthy (model s)) then load_model "base"
             else ret true) ;;
  if negb loaded then ret (Failed "Failed to load WhisperX model") else
  call ImportWhisperx (whisperx_import caps) ;;;
  loaded_audio <- call (LoadAudio audio_file_path)
                       (whisperx_load_audio caps audio_file_path) ;;
  match loaded_audio with
  | None => ret (Failed "Could not load audio data")
  | Some audio =>
  if (audio_len audio =? 0)%nat then ret (Failed "Could not load audio data")
  else
  batch_size <- _get_optimal_batch_size ;;
  s <- get_self ;;
  match model s with
  | None =>
      raise (OtherException
               "'NoneType' object has no attribute 'transcribe'")
  | Some m =>
  result <- call (Transcribe batch_size)
                 (model_transcribe caps m audio batch_size) ;;
  if no_segments result then ret (Failed "No speech detected in audio") else
  s <- get_self ;;
  result <-
    match align_model s, metadata s with
    | Some am, Some md =>
        if dict_truthy (Some md) then
          try_except
            (segs <- get_segments result ;;
             call (Align (device s))
                  (whisperx_align caps segs am md audio (device s)))
            (fun _ => ret result)
        else ret result
    | _, _ => ret result
    end ;;
  segs <- get_segments result ;;
  let full_text := _extract_text segs in
  s <- get_self ;;
  ret (Succeeded full_text (length segs)
         (match raw_language result with Some l => l | None => "en" end)
         (match model s with
          | Some h => match model_size_attr h with
                      | Some sz => sz
                      | None => "unknown"
                      end
          | None => "unknown"
          end)
         (device s))
  end
  end.

(** [transcribe_audio]: the [try] block under its two handlers. *)
Definition transcribe_audio (audio_file_path : string)
  : Py W TranscriptionResult :=
  try_except (transcribe_body audio_file_path)
    (fun e =>
       match e with
       | ImportError _ => ret (Failed "WhisperX not properly installed")
       | OtherException _ =>
           ret (Failed ("Transcription failed: " ++ exc_str e))
       end).

(** [cleanup_models]: one [try] block around every step. *)
Definition cleanup_models : Py W unit :=
  try_except
    (call ImportTorch (torch_import caps) ;;;
     s <- get_self ;;
     (if obj_truthy (model s) then set_model None else ret tt) ;;;
     s <- get_self ;;
     (if obj_truthy (align_model s) then set_align_model None
      else ret tt) ;;;
     s <- get_self ;;
     (if obj_truthy (metadata s) then set_metadata None else ret tt) ;;;
     call GcCollect (gc_collect caps) ;;;
     s <- get_self ;;
     on_cuda <- (if device_is (device s) cuda
                 then call CudaIsAvailable (cuda_is_available caps)
                 else ret false) ;;
     if on_cuda then
       call CudaEmptyCache (cuda_empty_cache caps) ;;;
       call CudaSynchronize (cuda_synchronize caps)
     else
       has <- (if device_is (device s) mps
               then call HasattrBackendsMps (hasattr_backends_mps caps)
               else ret false) ;;
       on_mps <- (if has then call MpsIsAvailable (mps_is_available caps)
                  else ret false) ;;
       if on_mps then
         can_clear <- call HasattrMpsEmptyCache
                           (hasattr_mps_empty_cache caps) ;;
         if can_clear then call MpsEmptyCache (mps_empty_cache caps)
         else ret tt
       else ret tt)
    (fun _ => ret tt).

(** [__exit__]: clean up, then return [False]. *)
Definition __exit__ : Py W bool :=
  cleanup_models ;;;
  ret false.

End Methods.
(** ** Reading a run *)

(** The call returned rather than raised. *)
Definition returned {A} (o : Outcome A) : bool :=
  match o with inr _ => true | inl _ => false end.

(** Events that belong to a release: the garbage collection pass, the
    cache clearing and the probes [cleanup_models] makes on the way. *)
Definition release_event (ev : Event) : bool :=
  match ev with
  | ImportTorch | GcCollect | CudaIsAvailable | CudaEmptyCache
  | CudaSynchronize | HasattrBackendsMps | MpsIsAvailable
  | HasattrMpsEmptyCache | MpsEmptyCache => true
  | _ => false
  end.

(** Events that load a model. *)
Definition load_event (ev : Event) : bool :=
  match ev with
  | LoadModel _ _ | LoadAlignModel _ _ => true
  | _ => false
  end.

(** A computation that always returns. *)
Definition never_raises {W A} (c : Py W A) : Prop :=
  forall st, exists a st', c st = (inr a, st').

(** [triple I P Q c]: started on a service satisfying [I], the computation
    [c] ends on one satisfying [I], whether it returns or raises; every
    call it records satisfies [P]; and a returned value satisfies [Q]. *)
Definition triple {W A} (I : Service -> Prop) (P : Event -> Prop)
  (Q : A -> Prop) (c : Py W A) : Prop :=
  forall st, I (self st) ->
    I (self (snd (c st)))
    /\ (exists evs, trace (snd (c st)) = (trace st ++ evs)%list
                    /\ Forall P evs)
    /\ match fst (c st) with inr a => Q a | inl _ => True end.

(** No condition on the returned value. *)
Definition any {A} : A -> Prop := fun _ => True.

(** The service is on device [d]. *)
Definition on_device (d : option Device) (s : Service) : Prop :=
  device s = d.

(** A successful result carries the device of the service. *)
Definition reports (d : option Device) (r : TranscriptionResult) : Prop :=
  match r with
  | Succeeded _ _ _ _ d' => d' = d
  | Failed _ => True
  end.

(** The value of the local variable [device_to_use] of [load_model] on a
    service whose device is [d]. *)
Definition device_to_use (d : option Device) : option Device :=
  if device_is d mps then Some cpu else d.

(** The service holds a main model. *)
Definition holds_model (s : Service) : Prop := model s <> None.

(** ** A concrete host

    A host is a fixed description of the machine: which libraries import,
    which accelerators answer, what the files and the models are.  Its
    capabilities do not change the world, so the world is [unit]. *)

Module Host.

Record t := mk {
  has_torch : bool;
  has_whisperx : bool;
  cuda : bool;
  mps : bool;
  gpu_bytes : option Z;
  file_size : string -> option Z;
  align_loads : bool;
  samples : nat;
  transcript : RawResult
}.

Definition answer {A} (o : Outcome A) : unit -> Outcome A * unit :=
  fun w => (o, w).

Definition import_of (present : bool) (name : string) : Outcome unit :=
  if present then inr tt
  else inl (ImportError ("No module named '" ++ name ++ "'")).

Definition caps (h : t) : Caps unit :=
  {| torch_import := answer (import_of (has_torch h) "torch");
     whisperx_import := answer (import_of (has_whisperx h) "whisperx");
     cuda_is_available := answer (inr (cuda h));
     cuda_get_device_name := answer (inr "GPU 0");
     hasattr_backends_mps := answer (inr true);
     mps_is_available := answer (inr (mps h));
     hasattr_mps_empty_cache := answer (inr true);
     cuda_empty_cache := answer (inr tt);
     cuda_synchronize := answer (inr tt);
     mps_empty_cache := answer (inr tt);
     cuda_total_memory :=
       answer (match gpu_bytes h with
               | Some b => inr b
               | None => inl (OtherException "CUDA driver error")
               end);
     gc_collect := answer (inr tt);
     os_path_exists :=
       fun p => answer (inr (match file_size h p with
                             | Some _ => true
                             | None => false
                             end));
     os_path_getsize :=
       fun p => answer (match file_size h p with
                        | Some n => inr n
                        | None => inl (OtherException "No such file")
                        end);
     whisperx_load_model :=
       fun size _ => answer (inr (mkModel 1 (Some size)));
     whisperx_load_align_model :=
       fun lang _ =>
         answer (if align_loads h
                 then inr (mkAlign 2, mkMetadata [("language", lang)])
                 else inl (OtherException "no alignment model"));
     whisperx_load_audio :=
       fun _ => answer (inr (Some (mkAudio (samples h))));
     model_transcribe := fun _ _ _ => answer (inr (transcript h));
     whisperx_align :=
       fun segs _ _ _ _ => answer (inr (mkRaw (Some segs) None)) |}.

(** A laptop with both libraries, no accelerator, one recording
    ["a.wav"] of 5 bytes and one empty file ["empty.wav"]. *)
Definition laptop : t :=
  {| has_torch := true; has_whisperx := true; cuda := false; mps := false;
     gpu_bytes := None;
     file_size := fun p => if String.eqb p "a.wav" then Some 5%Z
                           else if String.eqb p "empty.wav" then Some 0%Z
                           else None;
     align_loads := true; samples := 160;
     transcript := mkRaw (Some [mkSegment (Some "Hello");
                                mkSegment (Some ", world")]) (Some "en") |}.

(** The same laptop without torch. *)
Definition no_torch : t :=
  {| has_torch := false; has_whisperx := true; cuda := false; mps := false;
     gpu_bytes := None; file_size := file_size laptop;
     align_loads := true; samples := 160;
     transcript := transcript laptop |}.

(** The same laptop without whisperx. *)
Definition no_whisperx : t :=
  {| has_torch := true; has_whisperx := false; cuda := false; mps := false;
     gpu_bytes := None; file_size := file_size laptop;
     align_loads := true; samples := 160;
     transcript := transcript laptop |}.

(** A CUDA machine whose memory cannot be read. *)
Definition blind_gpu : t :=
  {| has_torch := true; has_whisperx := true; cuda := true; mps := false;
     gpu_bytes := None; file_size := file_size laptop;
     align_loads := true; samples := 160;
     transcript := transcript laptop |}.

(** A CUDA machine with the given number of bytes. *)
Definition gpu (bytes : Z) : t :=
  {| has_torch := true; has_whisperx := true; cuda := true; mps := false;
     gpu_bytes := Some bytes; file_size := file_size laptop;
     align_loads := true; samples := 160;
     transcript := transcript laptop |}.

(** The laptop when the recording holds no speech. *)
Definition silent : t :=
  {| has_torch := true; has_whisperx := true; cuda := false; mps := false;
     gpu_bytes := None; file_size := file_size laptop;
     align_loads := true; samples := 160;
     transcript := mkRaw (Some []) (Some "en") |}.

(** A service on the given device holding nothing. *)
Definition fresh (d : Device) : Sys unit :=
  mkSys (mkService None None None (Some d)) tt [].

(** A service on the given device holding a main model of the given
    size. *)
Definition ready (d : Device) (size : string) : Sys unit :=
  mkSys (mkService (Some (mkModel 7 (Some size))) None None (Some d)) tt [].

End Host.

(** ** Diagnostics: [get_system_info]

    The version and counter reads of the diagnostics are answered by a
    second record of capabilities.  [import torch], [import whisperx] and
    [torch.cuda.is_available] are recorded in the trace as everywhere else;
    the reads of this record are not. *)

(** A value stored in the diagnostic dictionary. *)
Inductive InfoValue :=
| VDevice (d : option Device)
| VStr (s : string)
| VOptStr (s : option string)
| VBool (b : bool)
| VInt (n : Z)
| VGigabytes (bytes : Z).

(** The dictionary [info], in insertion order.  [VGigabytes b] is the
    string [f"{b / 1e9:.2f} GB"]; [VOptStr] is a string or [None]. *)
Definition Info : Type := list (string * InfoValue).

(** [info[key] = value]: replace in place, or append. *)
Fixpoint dict_set (key : string) (value : InfoValue) (info : Info) : Info :=
  match info with
  | [] => [(key, value)]
  | (k, x) :: rest =>
      if String.eqb k key then (k, value) :: rest
      else (k, x) :: dict_set key value rest
  end.

(** [info.get(key)]. *)
Fixpoint dict_get (key : string) (info : Info) : option InfoValue :=
  match info with
  | [] => None
  | (k, x) :: rest => if String.eqb k key then Some x else dict_get key rest
  end.

Record InfoCaps (W : Type) := mkInfoCaps {
  sys_version : string;
  sys_platform : string;
  torch_version : W -> Outcome string * W;
  torch_version_cuda : W -> Outcome (option string) * W;
  cuda_device_count : W -> Outcome Z * W;
  cuda_memory_allocated : W -> Outcome Z * W;
  cuda_memory_reserved : W -> Outcome Z * W
}.

Arguments sys_version {W}.
Arguments sys_platform {W}.
Arguments torch_version {W}.
Arguments torch_version_cuda {W}.
Arguments cuda_device_count {W}.
Arguments cuda_memory_allocated {W}.
Arguments cuda_memory_reserved {W}.

(** A read that is not recorded in the trace. *)
Definition query {W A} (cap : W -> Outcome A * W) : Py W A :=
  fun st => let (r, w) := cap (world st) in
            (r, mkSys (self st) w (trace st)).

(** One statement of a [try] block that fills [info]: when it raises, the
    block ends with the dictionary as filled so far and the exception. *)
Definition filling {W A} (info : Info) (c : Py W A)
  (k : A -> Py W (Info * option PyExc)) : Py W (Info * option PyExc) :=
  fun st =>
    match c st with
    | (inr a, st') => k a st'
    | (inl e, st') => (inr (info, Some e), st')
    end.

(** What was written to standard output: [json.dumps] of a result
    dictionary or of the diagnostic dictionary. *)
Inductive Printed :=
| PrintedResult (r : TranscriptionResult)
| PrintedInfo (info : Info).

(** The end of the process: what it printed and its exit code. *)
Record Exit := mkExit {
  printed : list Printed;
  exit_code : Z
}.

(** The four status lines of [test_cleanup.py]. *)
Record CleanupReport := mkReport {
  main_loaded : bool;
  align_loaded : bool;
  main_after_cleanup : bool;
  align_after_cleanup : bool
}.

Section Diagnostics.
Context {W : Type} (caps : Caps W) (icaps : InfoCaps W).
Local Open Scope py_scope.

(** The first [try] block of [get_system_info]. *)
Definition torch_info (info : Info) : Py W (Info * option PyExc) :=
  filling info (call ImportTorch (torch_import caps)) (fun _ =>
  filling info (query (torch_version icaps)) (fun version =>
  let info := dict_set "pytorch_version" (VStr version) info in
  filling info (call CudaIsAvailable (cuda_is_available caps)) (fun avail =>
  let info := dict_set "cuda_available" (VBool avail) info in
  filling info (call CudaIsAvailable (cuda_is_available caps)) (fun avail =>
  if avail then
    filling info (query (torch_version_cuda icaps)) (fun cuda_version =>
    let info := dict_set "cuda_version" (VOptStr cuda_version) info in
    filling info (query (cuda_device_count icaps)) (fun count =>
    let info := dict_set "gpu_count" (VInt count) info in
    filling info (query (cuda_device_count icaps)) (fun count =>
    if (0 <? count)%Z then
      filling info (query (cuda_memory_allocated icaps)) (fun allocated =>
      let info :=
        dict_set "gpu_memory_allocated" (VGigabytes allocated) info in
      filling info (query (cuda_memory_reserved icaps)) (fun reserved =>
      let info :=
        dict_set "gpu_memory_reserved" (VGigabytes reserved) info in
      ret (info, None)))
    else ret (info, None))))
  else ret (info, None))))).

(** [get_system_info]: both [try] blocks handle [ImportError] only. *)
Definition get_system_info : Py W Info :=
  s <- get_self ;;
  let info := [("device", VDevice (device s));
               ("python_version", VStr (sys_version icaps));
               ("platform", VStr (sys_platform icaps))] in
  filled <- torch_info info ;;
  info <- match filled with
          | (info, None) => ret info
          | (info, Some (ImportError _)) =>
              ret (dict_set "pytorch_available" (VBool false) info)
          | (_, Some e) => raise e
          end ;;
  try_except
    (call ImportWhisperx (whisperx_import caps) ;;;
     ret (dict_set "whisperx_available" (VBool true) info))
    (fun e =>
       match e with
       | ImportError _ =>
           ret (dict_set "whisperx_available" (VBool false) info)
       | OtherException _ => raise e
       end).

(** [__del__]: clean up and ignore every error. *)
Definition __del__ : Py W unit :=
  try_except (cleanup_models caps) (fun _ => ret tt).

(** The [try] statement of [main] up to its handlers: construct the
    service, run the [with] block, leave it through [__exit__].  It gives
    what was printed and either the exit code or the exception that
    reaches the handlers.  [sys.exit] raises [SystemExit], which
    [__exit__] sees and which no [except Exception] catches; were
    [__exit__] to return [True], the exception would be dropped and the
    process would end with code 0.  [KeyboardInterrupt] is not among the
    exceptions modelled, so its handler has no counterpart here. *)
Definition main_with_service (audio_file : string)
  : Py W (list Printed * Outcome Z) :=
  fun st =>
    match __init__ caps st with
    | (inl e, st0) => (inr ([], inl e), st0)
    | (inr _, st0) =>
        match transcribe_audio caps audio_file st0 with
        | (inl e, st1) =>
            match __exit__ caps st1 with
            | (inl e', st2) => (inr ([], inl e'), st2)
            | (inr true, st2) => (inr ([], inr 0%Z), st2)
            | (inr false, st2) => (inr ([], inl e), st2)
            end
        | (inr result, st1) =>
            let out := [PrintedResult result] in
            let code := if success result then 0%Z else 1%Z in
            match __exit__ caps st1 with
            | (inl e', st2) => (inr (out, inl e'), st2)
            | (inr true, st2) => (inr (out, inr 0%Z), st2)
            | (inr false, st2) => (inr (out, inr code), st2)
            end
        end
    end.

(** [main], on [sys.argv].  A returned [Exit] is the process ending with
    that output and code; a raised exception is an uncaught one: a
    traceback on standard error and nothing more on standard output. *)
Definition main (argv : list string) : Py W Exit :=
  match argv with
  | [] | [_] =>
      ret (mkExit [PrintedResult (Failed "No audio file provided")] 1)
  | _ :: audio_file :: _ =>
      if String.eqb audio_file "--info" then
        __init__ caps ;;;
        info <- get_system_info ;;
        ret (mkExit [PrintedInfo info] 0)
      else
        found <- call (PathExists audio_file)
                      (os_path_exists caps audio_file) ;;
        if negb found then
          ret (mkExit
                 [PrintedResult
                    (Failed ("Audio file not found: " ++ audio_file))] 1)
        else
          ran <- main_with_service audio_file ;;
          match ran with
          | (out, inr code) => ret (mkExit out code)
          | (out, inl e) =>
              ret (mkExit
                     (out ++ [PrintedResult
                                (Failed ("Unexpected error: "
                                         ++ exc_str e)%string)])%list
                     1)
          end
  end.

(** [test_cleanup.py], from the construction of the service on: [None]
    is [sys.exit(1)] after a failed load. *)
Definition test_cleanup_script : Py W (option CleanupReport) :=
  __init__ caps ;;;
  loaded <- load_model caps "base" ;;
  if negb loaded then ret None else
  s <- get_self ;;
  cleanup_models caps ;;;
  s' <- get_self ;;
  ret (Some (mkReport (obj_truthy (model s)) (obj_truthy (align_model s))
               (obj_truthy (model s')) (obj_truthy (align_model s')))).

End Diagnostics.

(** ** Reading a run, continued *)

(** [align_model] and [metadata] are both set or both [None]. *)
Definition paired (s : Service) : Prop :=
  align_model s = None <-> metadata s = None.

(** What a successful result is made of: the text assembled from as many
    segments as it counts. *)
Definition assembled (r : TranscriptionResult) : Prop :=
  match r with
  | Succeeded text n _ _ _ =>
      exists segs, text = _extract_text segs /\ n = length segs
  | Failed _ => True
  end.

(** On a service whose device is [d]: a load made by [transcribe_audio]
    asks for size ["base"] on [device_to_use d], an alignment runs on [d]
    itself. *)
Definition device_of_call (d : option Device) (ev : Event) : Prop :=
  match ev with
  | LoadModel size dev => size = "base" /\ dev = device_to_use d
  | LoadAlignModel lang dev => lang = "en" /\ dev = device_to_use d
  | Align dev => dev = d
  | _ => True
  end.

(** The calls [cleanup_models] may make on a service whose device is
    [d]. *)
Definition cleanup_call (d : option Device) (ev : Event) : bool :=
  match ev with
  | ImportTorch | GcCollect => true
  | CudaIsAvailable | CudaEmptyCache | CudaSynchronize => device_is d cuda
  | HasattrBackendsMps | MpsIsAvailable | HasattrMpsEmptyCache
  | MpsEmptyCache => device_is d mps
  | _ => false
  end.

(** [audio is None or len(audio) == 0]. *)
Definition audio_missing (a : option Audio) : bool :=
  match a with
  | None => true
  | Some audio => (audio_len audio =? 0)%nat
  end.

(** ** A laboratory host: [Host] with injected faults

    A capability whose call is listed in [faults] raises the listed
    exception; every other call is answered as by [Host.caps]. *)

Module Lab.

Definition inject {A} (fault : option PyExc)
  (cap : unit -> Outcome A * unit) : unit -> Outcome A * unit :=
  match fault with
  | Some e => fun w => (inl e, w)
  | None => cap
  end.

Definition caps (h : Host.t) (faults : Event -> option PyExc) : Caps unit :=
  let c := Host.caps h in
  {| torch_import := inject (faults ImportTorch) (torch_import c);
     whisperx_import := inject (faults ImportWhisperx) (whisperx_import c);
     cuda_is_available :=
       inject (faults CudaIsAvailable) (cuda_is_available c);
     cuda_get_device_name :=
       inject (faults CudaGetDeviceName) (cuda_get_device_name c);
     hasattr_backends_mps :=
       inject (faults HasattrBackendsMps) (hasattr_backends_mps c);
     mps_is_available := inject (faults MpsIsAvailable) (mps_is_available c);
     hasattr_mps_empty_cache :=
       inject (faults HasattrMpsEmptyCache) (hasattr_mps_empty_cache c);
     cuda_empty_cache := inject (faults CudaEmptyCache) (cuda_empty_cache c);
     cuda_synchronize := inject (faults CudaSynchronize) (cuda_synchronize c);
     mps_empty_cache := inject (faults MpsEmptyCache) (mps_empty_cache c);
     cuda_total_memory :=
       inject (faults CudaTotalMemory) (cuda_total_memory c);
     gc_collect := inject (faults GcCollect) (gc_collect c);
     os_path_exists :=
       fun p => inject (faults (PathExists p)) (os_path_exists c p);
     os_path_getsize :=
       fun p => inject (faults (PathGetsize p)) (os_path_getsize c p);
     whisperx_load_model :=
       fun size d =>
         inject (faults (LoadModel size d)) (whisperx_load_model c size d);
     whisperx_load_align_model :=
       fun lang d =>
         inject (faults (LoadAlignModel lang d))
                (whisperx_load_align_model c lang d);
     whisperx_load_audio :=
       fun p => inject (faults (LoadAudio p)) (whisperx_load_audio c p);
     model_transcribe :=
       fun m a b => inject (faults (Transcribe b)) (model_transcribe c m a b);
     whisperx_align :=
       fun segs am md a d =>
         inject (faults (Align d)) (whisperx_align c segs am md a d) |}.

Definition no_fault : Event -> option PyExc := fun _ => None.

(** Every call of the given kind raises [e]. *)
Definition failing (hit : Event -> bool) (e : PyExc)
  : Event -> option PyExc :=
  fun ev => if hit ev then Some e else None.

Definition is_align (ev : Event) : bool :=
  match ev with Align _ => true | _ => false end.

Definition is_load_align (ev : Event) : bool :=
  match ev with LoadAlignModel _ _ => true | _ => false end.

Definition is_load_audio (ev : Event) : bool :=
  match ev with LoadAudio _ => true | _ => false end.

Definition is_gc (ev : Event) : bool :=
  match ev with GcCollect => true | _ => false end.

Definition is_cuda_probe (ev : Event) : bool :=
  match ev with CudaIsAvailable => true | _ => false end.

Definition is_torch_import (ev : Event) : bool :=
  match ev with ImportTorch => true | _ => false end.

Definition is_cuda_empty_cache (ev : Event) : bool :=
  match ev with CudaEmptyCache => true | _ => false end.

(** The diagnostic reads of a machine with one GPU. *)
Definition info_caps : InfoCaps unit :=
  {| sys_version := "3.11.4";
     sys_platform := "linux";
     torch_version := Host.answer (inr "2.1.0");
     torch_version_cuda := Host.answer (inr (Some "12.1"));
     cuda_device_count := Host.answer (inr 1%Z);
     cuda_memory_allocated := Host.answer (inr 0%Z);
     cuda_memory_reserved := Host.answer (inr 0%Z) |}.

(** The laptop with a recording that decodes to no sample. *)
Definition mute : Host.t :=
  {| Host.has_torch := true; Host.has_whisperx := true;
     Host.cuda := false; Host.mps := false; Host.gpu_bytes := None;
     Host.file_size := Host.file_size Host.laptop;
     Host.align_loads := true; Host.samples := 0;
     Host.transcript := Host.transcript Host.laptop |}.

(** The laptop without an alignment model to download. *)
Definition unaligned : Host.t :=
  {| Host.has_torch := true; Host.has_whisperx := true;
     Host.cuda := false; Host.mps := false; Host.gpu_bytes := None;
     Host.file_size := Host.file_size Host.laptop;
     Host.align_loads := false; Host.samples := 160;
     Host.transcript := Host.transcript Host.laptop |}.

(** The laptop with a recording in French. *)
Definition french : Host.t :=
  {| Host.has_torch := true; Host.has_whisperx := true;
     Host.cuda := false; Host.mps := false; Host.gpu_bytes := None;
     Host.file_size := Host.file_size Host.laptop;
     Host.align_loads := true; Host.samples := 160;
     Host.transcript :=
       mkRaw (Some [mkSegment (Some " Bonjour "); mkSegment (Some "!")])
             (Some "fr") |}.

(** A service on the CPU holding a main model and an alignment model. *)
Definition aligned_ready : Sys unit :=
  mkSys (mkService (Some (mkModel 7 (Some "base"))) (Some (mkAlign 8))
           (Some (mkMetadata [("language", "en")])) (Some cpu)) tt [].

End Lab.

(** ** Properties of the string helpers *)

Section StringFacts.
Import PyStr.

Lemma append_empty_r (s : string) : s ++ "" = s.
Proof. induction s as [|c s IH]; simpl; [reflexivity | now rewrite IH]. Qed.

Lemma append_assoc (a b c : string) : (a ++ b) ++ c = a ++ (b ++ c).
Proof. induction a as [|x a IH]; simpl; [reflexivity | now rewrite IH]. Qed.

Lemma truthy_false (s : string) : truthy s = false <-> s = "".
Proof. destruct s; simpl; split; congruence. Qed.

Lemma truthy_true (s : string) : truthy s = true <-> s <> "".
Proof. destruct s; simpl; split; congruence. Qed.

Lemma lstrip_lead (s : string) : lead_ws (lstrip s) = false.
Proof.
  induction s as [|c s IH]; simpl; [reflexivity|].
  destruct (isspace c) eqn:E; [exact IH | simpl; exact E].
Qed.

Lemma lstrip_fixed (s : string) : lead_ws s = false -> lstrip s = s.
Proof. destruct s as [|c s]; simpl; [reflexivity | now intros ->]. Qed.

Lemma rstrip_trail (s : string) : trail_ws (rstrip s) = false.
Proof.
  induction s as [|c s IH]; simpl; [reflexivity|].
  destruct (rstrip s) as [|d r] eqn:E.
  - destruct (isspace c) eqn:Ec; simpl; [reflexivity | exact Ec].
  - exact IH.
Qed.

Lemma rstrip_fixed (s : string) : trail_ws s = false -> rstrip s = s.
Proof.
  induction s as [|c s IH]; simpl; [reflexivity|].
  destruct s as [|d s'].
  - simpl. now intros ->.
  - intros H. rewrite (IH H). reflexivity.
Qed.

Lemma lstrip_keeps_trail (s : string) :
  trail_ws s = false -> trail_ws (lstrip s) = false.
Proof.
  induction s as [|c s IH]; [reflexivity|].
  intros H. cbn [lstrip]. destruct (isspace c) eqn:Ec; [|exact H].
  apply IH. destruct s as [|d s']; [reflexivity | exact H].
Qed.

Lemma strip_lead (s : string) : lead_ws (strip s) = false.
Proof. apply lstrip_lead. Qed.

Lemma strip_trail (s : string) : trail_ws (strip s) = false.
Proof. apply lstrip_keeps_trail, rstrip_trail. Qed.

Lemma strip_fixed (s : string) :
  lead_ws s = false -> trail_ws s = false -> strip s = s.
Proof.
  intros Hl Ht. unfold strip. rewrite (rstrip_fixed s Ht).
  now apply lstrip_fixed.
Qed.

Lemma lead_ws_app (a b : string) : a <> "" -> lead_ws (a ++ b) = lead_ws a.
Proof. destruct a; simpl; congruence. Qed.

Lemma trail_ws_app (a b : string) : b <> "" -> trail_ws (a ++ b) = trail_ws b.
Proof.
  intros Hb. induction a as [|c a IH]; simpl; [reflexivity|].
  destruct (a ++ b) as [|d r] eqn:E.
  - destruct a; simpl in E; [congruence | discriminate].
  - exact IH.
Qed.

Lemma app_nonempty_l (a b : string) : a <> "" -> a ++ b <> "".
Proof. destruct a; simpl; congruence. Qed.

Lemma app_nonempty_r (a b : string) : b <> "" -> a ++ b <> "".
Proof. destruct a; simpl; congruence. Qed.

End StringFacts.

(** ** [_extract_text] against the assembler of the specification *)

Section ExtractText.
Import PyStr.

Lemma prefix_single (p c : ascii) (s : string) :
  prefix (String p "") (String c s) = Ascii.eqb c p.
Proof.
  simpl. destruct (ascii_dec p c) as [->|Hne].
  - rewrite Ascii.eqb_refl. now destruct s.
  - symmetry. apply Ascii.eqb_neq. congruence.
Qed.

Lemma startswith_punctuation (c : ascii) (s : string) :
  startswith PUNCTUATION (String c s)
  = existsb (Ascii.eqb c) ["."; ","; "!"; "?"; ";"; ":"]%char.
Proof.
  unfold startswith, PUNCTUATION.
  cbn [existsb]. now rewrite !prefix_single.
Qed.

(** With text already collected, the loop body appends the separator and
    the piece. *)
Lemma glue_separator (acc text : string) :
  acc <> "" -> text <> "" ->
  (if truthy acc && negb (startswith PUNCTUATION text)
   then acc ++ " " else acc) ++ text
  = acc ++ separator text ++ text.
Proof.
  intros Ha Ht. apply truthy_true in Ha. rewrite Ha. cbn [andb].
  destruct text as [|c s]; [congruence|].
  rewrite startswith_punctuation. unfold separator.
  destruct (existsb _ _); cbn [negb]; [reflexivity|].
  now rewrite append_assoc.
Qed.

Lemma concat_cons (h : string) (t : list string) :
  String.concat "" (h :: t) = h ++ String.concat "" t.
Proof.
  destruct t as [|x t]; cbn [String.concat].
  - now rewrite append_empty_r.
  - reflexivity.
Qed.

Lemma join_rest_cons (q : string) (rest : list string) :
  join_rest (q :: rest) = (separator q ++ q) ++ join_rest rest.
Proof. unfold join_rest. cbn [map]. apply concat_cons. Qed.

Lemma trimmed_texts_cons (sg : Segment) (segs : list Segment) :
  trimmed_texts (sg :: segs)
  = match seg_text sg with
    | Some raw => if truthy (strip raw)
                  then strip raw :: trimmed_texts segs
                  else trimmed_texts segs
    | None => trimmed_texts segs
    end.
Proof.
  unfold trimmed_texts. cbn [flat_map].
  destruct (seg_text sg) as [raw|]; [|reflexivity].
  cbn [app filter]. reflexivity.
Qed.

Lemma strip_empty_of_falsy (raw : string) :
  truthy raw = false -> truthy (strip raw) = false.
Proof. intros H. apply truthy_false in H. now subst. Qed.

(** The loop, started with some text already collected. *)
Lemma fold_extract_nonempty (segs : list Segment) :
  forall acc, acc <> "" ->
  fold_left extract_step segs acc = acc ++ join_rest (trimmed_texts segs).
Proof.
  induction segs as [|sg segs IH]; intros acc Hacc; cbn [fold_left].
  - unfold trimmed_texts, join_rest. simpl. now rewrite append_empty_r.
  - rewrite trimmed_texts_cons. unfold extract_step.
    destruct (seg_text sg) as [raw|]; [|now apply IH].
    destruct (truthy raw) eqn:Hraw.
    + cbv zeta. destruct (truthy (strip raw)) eqn:Hs; [|now apply IH].
      apply truthy_true in Hs.
      rewrite (glue_separator acc (strip raw) Hacc Hs).
      rewrite IH by now apply app_nonempty_l.
      rewrite join_rest_cons. now rewrite !append_assoc.
    + rewrite (strip_empty_of_falsy raw Hraw). now apply IH.
Qed.

(** The loop, started from the empty string. *)
Lemma fold_extract_empty (segs : list Segment) :
  fold_left extract_step segs "" = assemble_spec (trimmed_texts segs).
Proof.
  induction segs as [|sg segs IH]; cbn [fold_left]; [reflexivity|].
  rewrite trimmed_texts_cons. unfold extract_step.
  destruct (seg_text sg) as [raw|]; [|exact IH].
  destruct (truthy raw) eqn:Hraw.
  - cbv zeta. destruct (truthy (strip raw)) eqn:Hs; [|exact IH].
    cbn [truthy andb append]. cbn [assemble_spec].
    apply fold_extract_nonempty. now apply truthy_true.
  - rewrite (strip_empty_of_falsy raw Hraw). exact IH.
Qed.

Lemma trimmed_texts_tight (segs : list Segment) :
  Forall tight (trimmed_texts segs).
Proof.
  induction segs as [|sg segs IH]; [constructor|].
  rewrite trimmed_texts_cons.
  destruct (seg_text sg) as [raw|]; [|exact IH].
  destruct (truthy (strip raw)) eqn:Hs; [|exact IH].
  constructor; [|exact IH].
  repeat split; [now apply truthy_true | apply strip_lead | apply strip_trail].
Qed.

Lemma separator_short (q : string) : separator q = "" \/ separator q = " ".
Proof.
  unfold separator. destruct q as [|c s]; [now right|].
  destruct (existsb _ _); [now left | now right].
Qed.

Lemma tight_glue (p q : string) :
  tight p -> tight q -> tight (p ++ separator q ++ q).
Proof.
  intros (Hp & Hpl & Hpt) (Hq & Hql & Hqt).
  assert (Hsq : separator q ++ q <> "") by now apply app_nonempty_r.
  repeat split.
  - now apply app_nonempty_l.
  - now rewrite lead_ws_app.
  - rewrite trail_ws_app by exact Hsq. now rewrite trail_ws_app.
Qed.

Lemma tight_join (rest : list string) :
  forall p, tight p -> Forall tight rest -> tight (p ++ join_rest rest).
Proof.
  induction rest as [|q rest IH]; intros p Hp Hrest.
  - unfold join_rest. simpl. now rewrite append_empty_r.
  - inversion Hrest as [|? ? Hq Hrest']; subst.
    rewrite join_rest_cons, <- append_assoc.
    apply IH; [|exact Hrest']. now apply tight_glue.
Qed.

Lemma assemble_spec_clean (ps : list string) :
  Forall tight ps ->
  lead_ws (assemble_spec ps) = false /\ trail_ws (assemble_spec ps) = false.
Proof.
  destruct ps as [|p rest]; intros H; [now split|].
  inversion H as [|? ? Hp Hrest]; subst. cbn [assemble_spec].
  destruct (tight_join rest p Hp Hrest) as (_ & Hl & Ht). now split.
Qed.

Lemma extract_text_eq (segs : list Segment) :
  _extract_text segs = assemble_spec (trimmed_texts segs).
Proof.
  unfold _extract_text. rewrite fold_extract_empty.
  destruct (assemble_spec_clean _ (trimmed_texts_tight segs)) as [Hl Ht].
  now apply strip_fixed.
Qed.

(** C5. For every list of segments, [_extract_text] returns the non-empty
    trimmed segment texts joined in order: the first piece as it is, every
    later piece behind one space, or behind nothing when it starts with one
    of [. , ! ? ; :].  Every piece is non-empty with no whitespace at
    either end and a separator is at most one space, so no joint holds two
    spaces; the result has no leading and no trailing whitespace; and
    "Hello" followed by ", world" gives exactly "Hello, world". *)
Theorem extract_text_assembles (segments : list Segment) :
  _extract_text segments = assemble_spec (trimmed_texts segments)
  /\ Forall tight (trimmed_texts segments)
  /\ (forall q, separator q = "" \/ separator q = " ")
  /\ (forall c s, separator (String c s) = ""
                  <-> In c ["."; ","; "!"; "?"; ";"; ":"]%char)
  /\ lead_ws (_extract_text segments) = false
  /\ trail_ws (_extract_text segments) = false
  /\ _extract_text [mkSegment (Some "Hello"); mkSegment (Some ", world")]
     = "Hello, world".
Proof.
  split; [apply extract_text_eq|].
  split; [apply trimmed_texts_tight|].
  split; [apply separator_short|].
  split.
  { intros c s. unfold separator.
    destruct (existsb (Ascii.eqb c) _) eqn:E.
    - split; [intros _|reflexivity].
      apply existsb_exists in E. destruct E as (x & Hin & Heq).
      apply Ascii.eqb_eq in Heq. now subst.
    - split; [discriminate|]. intros Hin.
      assert (existsb (Ascii.eqb c) ["."; ","; "!"; "?"; ";"; ":"]%char
              = true) as E'.
      { apply existsb_exists. exists c. split; [exact Hin|].
        apply Ascii.eqb_refl. }
      congruence. }
  rewrite extract_text_eq.
  destruct (assemble_spec_clean _ (trimmed_texts_tight segments)) as [Hl Ht].
  split; [exact Hl|]. split; [exact Ht|]. reflexivity.
Qed.

End ExtractText.

(** ** Reasoning about method bodies *)

Section Logic.
Context {W : Type}.
Local Open Scope list_scope.

Lemma never_raises_ret {A} (a : A) : never_raises (ret a : Py W A).
Proof. intros st. now exists a, st. Qed.

Lemma never_raises_try {A} (c : Py W A) (h : PyExc -> Py W A) :
  (forall e, never_raises (h e)) -> never_raises (try_except c h).
Proof.
  intros Hh st. unfold try_except.
  destruct (c st) as [[e|a] st1]; [apply Hh | now exists a, st1].
Qed.

Variable I : Service -> Prop.
Variable P : Event -> Prop.

Lemma triple_ret {A} (Q : A -> Prop) (a : A) :
  Q a -> triple I P Q (ret a : Py W A).
Proof.
  intros HQ st H. split; [exact H|]. split; [|exact HQ].
  exists []. split; [|constructor]. simpl. now rewrite app_nil_r.
Qed.

Lemma triple_raise {A} (Q : A -> Prop) (e : PyExc) :
  triple I P Q (raise e : Py W A).
Proof.
  intros st H. split; [exact H|]. split; [|exact Logic.I].
  exists []. split; [|constructor]. simpl. now rewrite app_nil_r.
Qed.

Lemma triple_call {A} (Q : A -> Prop) (ev : Event)
  (cap : W -> Outcome A * W) :
  (forall a, Q a) -> P ev -> triple I P Q (call ev cap).
Proof.
  intros HQ Hev st H. unfold call. destruct (cap (world st)) as [r w].
  split; [exact H|]. split.
  - exists [ev]. split; [reflexivity|]. now constructor.
  - simpl. destruct r; [exact Logic.I | apply HQ].
Qed.

Lemma triple_put (Q : unit -> Prop) (s : Service) :
  Q tt -> I s -> triple I P Q (put_self s : Py W unit).
Proof.
  intros HQ Hs st _. split; [exact Hs|]. split; [|exact HQ].
  exists []. split; [|constructor]. simpl. now rewrite app_nil_r.
Qed.

Lemma triple_bind {A B} (Q : B -> Prop) (c : Py W A) (k : A -> Py W B) :
  triple I P any c -> (forall a, triple I P Q (k a)) ->
  triple I P Q (bind c k).
Proof.
  intros Hc Hk st H. unfold bind.
  destruct (Hc st H) as (H1 & (evs1 & Ht1 & HP1) & _).
  destruct (c st) as [[e|a] st1]; simpl in *.
  - split; [exact H1|]. split; [now exists evs1 | exact Logic.I].
  - destruct (Hk a st1 H1) as (H2 & (evs2 & Ht2 & HP2) & HQ).
    split; [exact H2|]. split; [|exact HQ].
    exists (evs1 ++ evs2). split.
    + now rewrite Ht2, Ht1, app_assoc.
    + now apply Forall_app.
Qed.

(** Reading [self] gives a service that satisfies the invariant. *)
Lemma triple_get {B} (Q : B -> Prop) (k : Service -> Py W B) :
  (forall s, I s -> triple I P Q (k s)) -> triple I P Q (bind get_self k).
Proof.
  intros Hk st H. unfold bind, get_self. now apply Hk.
Qed.

Lemma triple_try {A} (Q : A -> Prop) (c : Py W A) (h : PyExc -> Py W A) :
  triple I P Q c -> (forall e, triple I P Q (h e)) ->
  triple I P Q (try_except c h).
Proof.
  intros Hc Hh st H. unfold try_except.
  destruct (Hc st H) as (H1 & (evs1 & Ht1 & HP1) & HQ1).
  destruct (c st) as [[e|a] st1]; simpl in *.
  - destruct (Hh e st1 H1) as (H2 & (evs2 & Ht2 & HP2) & HQ2).
    split; [exact H2|]. split; [|exact HQ2].
    exists (evs1 ++ evs2). split.
    + now rewrite Ht2, Ht1, app_assoc.
    + now apply Forall_app.
  - split; [exact H1|]. split; [now exists evs1 | exact HQ1].
Qed.

(** A stronger condition on the returned value may be forgotten. *)
Lemma triple_weaken {A} (Q Q' : A -> Prop) (c : Py W A) :
  (forall a, Q a -> Q' a) -> triple I P Q c -> triple I P Q' c.
Proof.
  intros HQ Hc st H. destruct (Hc st H) as (H1 & Hev & HQ1).
  split; [exact H1|]. split; [exact Hev|].
  destruct (fst (c st)); [exact Logic.I | now apply HQ].
Qed.

End Logic.

(** Take a method body apart with the rules above.  [put] shows that a
    stored service keeps the invariant, [ev] that a recorded call is
    allowed, [post] that a returned value is as promised. *)
Ltac triple_with put ev post :=
  repeat first
    [ apply triple_ret; post
    | apply triple_raise
    | apply triple_call; [intros ?; post | ev]
    | apply triple_put; [post | put]
    | apply triple_get; intros ? ?; cbv zeta
    | apply triple_bind; [|intros ?]
    | apply triple_try; [|intros ?]
    | match goal with
      | |- triple _ _ _ (if ?b then _ else _) => destruct b eqn:?
      | |- triple _ _ _ (match ?x with _ => _ end) => destruct x eqn:?
      end ].

(** ** The device is fixed after construction *)

Section DeviceFrame.
Context {W : Type} (caps : Caps W).

Ltac frame_put :=
  unfold on_device in *; cbn [device]; assumption.

Ltac frame :=
  triple_with ltac:(frame_put) ltac:(exact Logic.I)
              ltac:(first [exact Logic.I | assumption]).

Lemma load_model_frame (d : option Device) (model_size : string) :
  triple (on_device d) any any (load_model caps model_size).
Proof.
  unfold load_model, set_model, set_align_model, set_metadata. frame.
Qed.

Lemma batch_size_frame (d : option Device) :
  triple (on_device d) any any (_get_optimal_batch_size caps).
Proof. unfold _get_optimal_batch_size. frame. Qed.

Lemma cleanup_models_frame (d : option Device) :
  triple (on_device d) any any (cleanup_models caps).
Proof.
  unfold cleanup_models, set_model, set_align_model, set_metadata. frame.
Qed.

Lemma transcribe_body_frame (d : option Device) (path : string) :
  triple (on_device d) any (reports d) (transcribe_body caps path).
Proof.
  unfold transcribe_body, get_segments.
  triple_with ltac:(frame_put) ltac:(exact Logic.I)
              ltac:(first [exact Logic.I | assumption]);
  try apply load_model_frame; try apply batch_size_frame.
Qed.

Lemma transcribe_audio_frame (d : option Device) (path : string) :
  triple (on_device d) any (reports d) (transcribe_audio caps path).
Proof.
  unfold transcribe_audio. apply triple_try.
  - apply transcribe_body_frame.
  - intros [m|m]; apply triple_ret; exact Logic.I.
Qed.

End DeviceFrame.

(** Run a method on a symbolic state: unfold the monad and split on every
    answer of the world. *)
Ltac run_all :=
  repeat (cbn;
          match goal with
          | |- context [match ?x with _ => _ end] =>
              lazymatch x with
              | context [match _ with _ => _ end] => fail
              | _ => destruct x eqn:?
              end
          end).

Section Construction.
Context {W : Type} (caps : Caps W).

Lemma init_selects (st : Sys W) :
  match __init__ caps st with
  | (inr _, st') => exists d, device (self st') = Some d
  | (inl _, _) => True
  end.
Proof.
  unfold __init__, _setup_device, set_device, try_except, bind, call, ret,
    raise, put_self, get_self, after.
  run_all; cbn; eauto.
Qed.

(** C9. The device is chosen by [__init__], which runs [_setup_device]
    once: whenever construction returns, the service has a device.  After
    that [load_model], [transcribe_audio], [cleanup_models] and
    [_get_optimal_batch_size] leave the recorded device as it was, whatever
    the external libraries do, and a successful transcription reports that
    same device. *)
Theorem device_fixed_after_construction
  (st : Sys W) (model_size path : string) :
  match __init__ caps st with
  | (inr _, st') => exists d, device (self st') = Some d
  | (inl _, _) => True
  end
  /\ device (self (snd (load_model caps model_size st))) = device (self st)
  /\ device (self (snd (transcribe_audio caps path st))) = device (self st)
  /\ device (self (snd (cleanup_models caps st))) = device (self st)
  /\ device (self (snd (_get_optimal_batch_size caps st)))
     = device (self st)
  /\ reports (device (self st))
       (match fst (transcribe_audio caps path st) with
        | inr r => r
        | inl _ => Failed ""
        end).
Proof.
  split; [apply init_selects|].
  split; [apply (load_model_frame caps _ model_size st eq_refl)|].
  destruct (transcribe_audio_frame caps _ path st eq_refl) as (Hd & _ & Hr).
  split; [exact Hd|].
  split; [apply (cleanup_models_frame caps _ st eq_refl)|].
  split; [apply (batch_size_frame caps _ st eq_refl)|].
  destruct (fst (transcribe_audio caps path st)); [exact Logic.I | exact Hr].
Qed.

End Construction.

(** ** Input validation and the no-speech failure *)

Section Validation.
Context {W : Type} (caps : Caps W).
Local Open Scope list_scope.

(** C6. When the path does not exist, [transcribe_audio] returns the
    failure "Audio file not found: <path>".  The existence probe is the
    only external call of the run: no import, no model load, and the
    service is left as it was. *)
Theorem transcribe_missing_file (path : string) (st : Sys W) (w1 : W) :
  os_path_exists caps path (world st) = (inr false, w1) ->
  transcribe_audio caps path st
  = (inr (Failed ("Audio file not found: " ++ path)%string),
     mkSys (self st) w1 (trace st ++ [PathExists path])).
Proof.
  intros H. unfold transcribe_audio, try_except, transcribe_body.
  unfold bind at 1. unfold call at 1. rewrite H. reflexivity.
Qed.

(** C7. When the path exists and its size is zero, [transcribe_audio]
    returns the failure "Audio file is empty".  The existence probe and the
    size probe are the only external calls of the run: the model is not
    loaded and [whisperx.load_audio] is not called. *)
Theorem transcribe_empty_file (path : string) (st : Sys W) (w1 w2 : W) :
  os_path_exists caps path (world st) = (inr true, w1) ->
  os_path_getsize caps path w1 = (inr 0%Z, w2) ->
  transcribe_audio caps path st
  = (inr (Failed "Audio file is empty"),
     mkSys (self st) w2 (trace st ++ [PathExists path; PathGetsize path])).
Proof.
  intros H1 H2. unfold transcribe_audio, try_except, transcribe_body.
  unfold bind at 1. unfold call at 1. rewrite H1. cbn [negb].
  unfold bind at 1. unfold call at 1. cbn [world after]. rewrite H2.
  cbn [Z.eqb ret]. unfold after. cbn [self world trace].
  now rewrite <- app_assoc.
Qed.

(** C8. When the file is there and not empty, a main model is held or
    [load_model] succeeds, the audio decodes to at least one sample, and
    [model.transcribe] returns a result without segments (no key, or an
    empty list), [transcribe_audio] returns the failure "No speech detected
    in audio", not a success with empty text; alignment is not tried. *)
Theorem transcribe_no_speech
  (path : string) (st st3 st6 : Sys W) (w1 w2 w4 w5 w7 : W)
  (size batch : Z) (audio : Audio) (m : ModelHandle) (result : RawResult) :
  os_path_exists caps path (world st) = (inr true, w1) ->
  os_path_getsize caps path w1 = (inr size, w2) ->
  size <> 0%Z ->
  (if negb (obj_truthy (model (self st)))
   then load_model caps "base" else ret true)
    (after (after st (PathExists path) w1) (PathGetsize path) w2)
  = (inr true, st3) ->
  whisperx_import caps (world st3) = (inr tt, w4) ->
  whisperx_load_audio caps path w4 = (inr (Some audio), w5) ->
  audio_len audio <> 0 ->
  _get_optimal_batch_size caps
    (after (after st3 ImportWhisperx w4) (LoadAudio path) w5)
  = (inr batch, st6) ->
  model (self st6) = Some m ->
  model_transcribe caps m audio batch (world st6) = (inr result, w7) ->
  no_segments result = true ->
  transcribe_audio caps path st
  = (inr (Failed "No speech detected in audio"),
     after st6 (Transcribe batch) w7).
Proof.
  intros H1 H2 Hsize H3 H4 H5 Hlen H6 Hm H7 Hnone.
  apply Z.eqb_neq in Hsize. apply Nat.eqb_neq in Hlen.
  unfold transcribe_audio, try_except, transcribe_body.
  unfold bind at 1. unfold call at 1. rewrite H1. cbn [negb].
  unfold bind at 1. unfold call at 1. cbn [world after]. rewrite H2.
  rewrite Hsize.
  unfold bind at 1. unfold get_self at 1. cbn [self after].
  unfold bind at 1.
  change (mkSys (self st) w2 ((trace st ++ [PathExists path])
                              ++ [PathGetsize path]))
    with (after (after st (PathExists path) w1) (PathGetsize path) w2).
  rewrite H3. cbn [negb].
  unfold bind at 1. unfold call at 1. rewrite H4.
  unfold bind at 1. unfold call at 1. cbn [world after]. rewrite H5.
  rewrite Hlen.
  unfold bind at 1.
  change (mkSys (self st3) w5 ((trace st3 ++ [ImportWhisperx])
                               ++ [LoadAudio path]))
    with (after (after st3 ImportWhisperx w4) (LoadAudio path) w5).
  rewrite H6.
  unfold bind at 1. unfold get_self at 1. rewrite Hm.
  unfold bind at 1. unfold call at 1. rewrite H7. rewrite Hnone.
  reflexivity.
Qed.

End Validation.

(** ** What [load_model] does *)

Section Loading.
Context {W : Type} (caps : Caps W).
Local Open Scope list_scope.

(** Every run of [load_model], by the answers of the three calls it can
    make. *)
Lemma load_model_run (model_size : string) (st : Sys W) :
  let d := device_to_use (device (self st)) in
  match whisperx_import caps (world st) with
  | (inl _, w1) =>
      load_model caps model_size st = (inr false, after st ImportWhisperx w1)
  | (inr _, w1) =>
      match whisperx_load_model caps model_size d w1 with
      | (inl _, w2) =>
          load_model caps model_size st
          = (inr false,
             mkSys (self st) w2
               (trace st ++ [ImportWhisperx; LoadModel model_size d]))
      | (inr m, w2) =>
          match whisperx_load_align_model caps "en" d w2 with
          | (inl _, w3) =>
              load_model caps model_size st
              = (inr true,
                 mkSys (mkService (Some m) None None (device (self st))) w3
                   (trace st ++ [ImportWhisperx; LoadModel model_size d;
                                 LoadAlignModel "en" d]))
          | (inr am, w3) =>
              load_model caps model_size st
              = (inr true,
                 mkSys (mkService (Some m) (Some (fst am)) (Some (snd am))
                          (device (self st))) w3
                   (trace st ++ [ImportWhisperx; LoadModel model_size d;
                                 LoadAlignModel "en" d]))
          end
      end
  end.
Proof.
  unfold load_model, device_to_use, set_model, set_align_model,
    set_metadata, try_except, bind, call, ret, put_self, get_self, after.
  run_all; cbn; rewrite <- ?app_assoc; reflexivity.
Qed.

(** With a main model held, the batch-size probe loads nothing. *)
Lemma batch_size_loads_nothing :
  triple holds_model (fun ev => load_event ev = false) any
    (_get_optimal_batch_size caps).
Proof.
  unfold _get_optimal_batch_size.
  triple_with ltac:(idtac) ltac:(reflexivity) ltac:(exact Logic.I).
Qed.

(** With a main model held, [transcribe_audio] loads nothing. *)
Lemma transcribe_loads_nothing (path : string) :
  triple holds_model (fun ev => load_event ev = false) any
    (transcribe_audio caps path).
Proof.
  unfold transcribe_audio, transcribe_body, get_segments.
  triple_with ltac:(idtac) ltac:(reflexivity) ltac:(exact Logic.I);
    try apply batch_size_loads_nothing.
  all: match goal with
       | H : holds_model ?s, E : negb (obj_truthy (model ?s)) = true |- _ =>
           exfalso; unfold holds_model in H;
           destruct (model s); [discriminate E | now apply H]
       end.
Qed.

(** On [mps] every load is on the CPU and the recorded device stays. *)
Lemma load_model_on_mps_calls (model_size : string) (st : Sys W) :
  device (self st) = Some mps ->
  let st' := snd (load_model caps model_size st) in
  (exists evs,
      trace st' = trace st ++ evs
      /\ (forall s d, In (LoadModel s d) evs -> s = model_size /\ d = Some cpu)
      /\ (forall l d, In (LoadAlignModel l d) evs -> d = Some cpu)
      /\ (fst (load_model caps model_size st) = inr true ->
          In (LoadModel model_size (Some cpu)) evs))
  /\ device (self st') = Some mps
  /\ forall path,
       reports (Some mps)
         (match fst (transcribe_audio caps path st') with
          | inr r => r
          | inl _ => Failed ""
          end).
Proof.
  intros Hd st'.
  assert (Hdev : device (self st') = Some mps).
  { unfold st'. rewrite <- Hd.
    apply (load_model_frame caps _ model_size st eq_refl). }
  split; [|split; [exact Hdev|]].
  - pose proof (load_model_run model_size st) as Hrun. cbv zeta in Hrun.
    rewrite Hd in Hrun. change (device_to_use (Some mps)) with (Some cpu) in Hrun.
    unfold st'.
    destruct (whisperx_import caps (world st)) as [[e|u] w1].
    { rewrite Hrun. exists [ImportWhisperx]. cbn.
      repeat split; try discriminate; intros; intuition discriminate. }
    destruct (whisperx_load_model caps model_size (Some cpu) w1)
      as [[e|m] w2].
    { rewrite Hrun. exists [ImportWhisperx; LoadModel model_size (Some cpu)].
      cbn. repeat split; try discriminate; intros;
        intuition (try discriminate; congruence). }
    destruct (whisperx_load_align_model caps "en" (Some cpu) w2)
      as [[e|am] w3]; rewrite Hrun;
      exists [ImportWhisperx; LoadModel model_size (Some cpu);
              LoadAlignModel "en" (Some cpu)];
      cbn; repeat split; try discriminate; intros;
        intuition (try discriminate; congruence).
  - intros path.
    destruct (transcribe_audio_frame caps (Some mps) path st' Hdev)
      as (_ & _ & Hr).
    destruct (fst (transcribe_audio caps path st'));
      [exact Logic.I | exact Hr].
Qed.

(** C2, as the code has it.  On a service whose device is [mps],
    [load_model] passes ["cpu"] to [whisperx.load_model] as well as to
    [whisperx.load_align_model].  The run is told by the answers of the
    libraries: when [import whisperx] returns, the main model is asked for
    on the CPU; when that returns, the alignment model is asked for on the
    CPU too, and the service ends holding what was returned (no alignment
    handles when the alignment load raised).  Every load it makes is on the
    CPU.  The device recorded in the service stays [mps], and a later
    successful transcription reports [mps]. *)
Theorem load_model_on_mps (model_size : string) (st : Sys W) :
  device (self st) = Some mps ->
  let st' := snd (load_model caps model_size st) in
  match whisperx_import caps (world st) with
  | (inl _, w1) =>
      load_model caps model_size st = (inr false, after st ImportWhisperx w1)
  | (inr _, w1) =>
      match whisperx_load_model caps model_size (Some cpu) w1 with
      | (inl _, w2) =>
          load_model caps model_size st
          = (inr false,
             mkSys (self st) w2
               (trace st ++ [ImportWhisperx;
                             LoadModel model_size (Some cpu)]))
      | (inr m, w2) =>
          match whisperx_load_align_model caps "en" (Some cpu) w2 with
          | (inl _, w3) =>
              load_model caps model_size st
              = (inr true,
                 mkSys (mkService (Some m) None None (Some mps)) w3
                   (trace st ++ [ImportWhisperx;
                                 LoadModel model_size (Some cpu);
                                 LoadAlignModel "en" (Some cpu)]))
          | (inr am, w3) =>
              load_model caps model_size st
              = (inr true,
                 mkSys (mkService (Some m) (Some (fst am)) (Some (snd am))
                          (Some mps)) w3
                   (trace st ++ [ImportWhisperx;
                                 LoadModel model_size (Some cpu);
                                 LoadAlignModel "en" (Some cpu)]))
          end
      end
  end
  /\ (exists evs,
      trace st' = trace st ++ evs
      /\ (forall s d, In (LoadModel s d) evs -> s = model_size /\ d = Some cpu)
      /\ (forall l d, In (LoadAlignModel l d) evs -> d = Some cpu)
      /\ (fst (load_model caps model_size st) = inr true ->
          In (LoadModel model_size (Some cpu)) evs))
  /\ device (self st') = Some mps
  /\ forall path,
       reports (Some mps)
         (match fst (transcribe_audio caps path st') with
          | inr r => r
          | inl _ => Failed ""
          end).
Proof.
  intros Hd st'. split.
  - pose proof (load_model_run model_size st) as Hrun. cbv zeta in Hrun.
    rewrite Hd in Hrun.
    change (device_to_use (Some mps)) with (Some cpu) in Hrun.
    exact Hrun.
  - exact (load_model_on_mps_calls model_size st Hd).
Qed.

(** [load_model] makes no release call and loads whenever it can;
    [transcribe_audio] loads nothing when a model is held. *)
Lemma load_model_calls (model_size : string) (st : Sys W) :
  let st' := snd (load_model caps model_size st) in
  (exists evs,
      trace st' = trace st ++ evs
      /\ Forall (fun ev => release_event ev = false) evs
      /\ (returned (fst (whisperx_import caps (world st))) = true ->
          In (LoadModel model_size (device_to_use (device (self st)))) evs))
  /\ (fst (load_model caps model_size st) = inr false -> self st' = self st)
  /\ (fst (load_model caps model_size st) = inr true ->
      holds_model (self st'))
  /\ (holds_model (self st) ->
      forall path, exists evs,
        trace (snd (transcribe_audio caps path st)) = trace st ++ evs
        /\ Forall (fun ev => load_event ev = false) evs).
Proof.
  intros st'. unfold st'.
  pose proof (load_model_run model_size st) as Hrun. cbv zeta in Hrun.
  split; [|split; [|split]].
  - destruct (whisperx_import caps (world st)) as [[e|u] w1].
    { rewrite Hrun. exists [ImportWhisperx]. cbn.
      repeat split; try discriminate. now repeat constructor. }
    destruct (whisperx_load_model caps model_size _ w1) as [[e|m] w2].
    { rewrite Hrun. eexists. cbn. split; [reflexivity|].
      split; [now repeat constructor | intros _; now right; left]. }
    destruct (whisperx_load_align_model caps "en" _ w2) as [[e|am] w3];
      rewrite Hrun; eexists; cbn; (split; [reflexivity|]);
      (split; [now repeat constructor | intros _; now right; left]).
  - destruct (whisperx_import caps (world st)) as [[e|u] w1];
      [now rewrite Hrun|].
    destruct (whisperx_load_model caps model_size _ w1) as [[e|m] w2];
      [now rewrite Hrun|].
    destruct (whisperx_load_align_model caps "en" _ w2) as [[e|am] w3];
      rewrite Hrun; discriminate.
  - destruct (whisperx_import caps (world st)) as [[e|u] w1];
      [rewrite Hrun; discriminate|].
    destruct (whisperx_load_model caps model_size _ w1) as [[e|m] w2] eqn:E;
      [rewrite Hrun; discriminate|].
    destruct (whisperx_load_align_model caps "en" _ w2) as [[e|am] w3];
      rewrite Hrun; intros _; cbn; discriminate.
  - intros Hm path.
    destruct (transcribe_loads_nothing path st Hm) as (_ & Hev & _).
    exact Hev.
Qed.

(** C4, as the code has it.  [load_model] never looks at what the service
    holds.  Its run is told by the answers of the libraries alone: whenever
    [import whisperx] returns it calls [whisperx.load_model] with the given
    size again, be a model of that size held or not, and when that returns
    the service ends holding the returned handle in place of whatever it
    held, with the returned alignment handles (or none when the alignment
    load raised).  It makes no call that belongs to a release, and a failed
    load leaves the service as it was.  Skipping the load is done by
    [transcribe_audio] alone: with a main model held it loads nothing. *)
Theorem load_model_always_loads (model_size : string) (st : Sys W) :
  let st' := snd (load_model caps model_size st) in
  let d := device_to_use (device (self st)) in
  match whisperx_import caps (world st) with
  | (inl _, w1) =>
      load_model caps model_size st = (inr false, after st ImportWhisperx w1)
  | (inr _, w1) =>
      match whisperx_load_model caps model_size d w1 with
      | (inl _, w2) =>
          load_model caps model_size st
          = (inr false,
             mkSys (self st) w2
               (trace st ++ [ImportWhisperx; LoadModel model_size d]))
      | (inr m, w2) =>
          match whisperx_load_align_model caps "en" d w2 with
          | (inl _, w3) =>
              load_model caps model_size st
              = (inr true,
                 mkSys (mkService (Some m) None None (device (self st))) w3
                   (trace st ++ [ImportWhisperx; LoadModel model_size d;
                                 LoadAlignModel "en" d]))
          | (inr am, w3) =>
              load_model caps model_size st
              = (inr true,
                 mkSys (mkService (Some m) (Some (fst am)) (Some (snd am))
                          (device (self st))) w3
                   (trace st ++ [ImportWhisperx; LoadModel model_size d;
                                 LoadAlignModel "en" d]))
          end
      end
  end
  /\ (exists evs,
      trace st' = trace st ++ evs
      /\ Forall (fun ev => release_event ev = false) evs
      /\ (returned (fst (whisperx_import caps (world st))) = true ->
          In (LoadModel model_size (device_to_use (device (self st)))) evs))
  /\ (fst (load_model caps model_size st) = inr false -> self st' = self st)
  /\ (fst (load_model caps model_size st) = inr true ->
      holds_model (self st'))
  /\ (holds_model (self st) ->
      forall path, exists evs,
        trace (snd (transcribe_audio caps path st)) = trace st ++ evs
        /\ Forall (fun ev => load_event ev = false) evs).
Proof.
  intros st' d. split.
  - exact (load_model_run model_size st).
  - exact (load_model_calls model_size st).
Qed.

End Loading.

(** ** The batch size *)

Section BatchSize.
Context {W : Type} (caps : Caps W).

(** C3, as the code has it.  On [cuda] the batch size is 32 when the
    reported memory is above 8 * 10^9 bytes, 16 when it is above 4 * 10^9
    and at most 8 * 10^9, 8 when it is at most 4 * 10^9, and 16 (not 8)
    when [import torch] or the memory read raises; on [mps] it is 8 and on
    any other device 4, both without reading the memory. *)
Theorem optimal_batch_size_table (st : Sys W) :
  match device (self st) with
  | Some cuda =>
      match torch_import caps (world st) with
      | (inl _, w1) =>
          _get_optimal_batch_size caps st
          = (inr 16%Z, after st ImportTorch w1)
      | (inr _, w1) =>
          match cuda_total_memory caps w1 with
          | (inl _, w2) =>
              _get_optimal_batch_size caps st
              = (inr 16%Z,
                 after (after st ImportTorch w1) CudaTotalMemory w2)
          | (inr bytes, w2) =>
              _get_optimal_batch_size caps st
              = (inr (if (8 * 10 ^ 9 <? bytes)%Z then 32%Z
                      else if (4 * 10 ^ 9 <? bytes)%Z then 16%Z
                      else 8%Z),
                 after (after st ImportTorch w1) CudaTotalMemory w2)
          end
      end
  | Some mps => _get_optimal_batch_size caps st = (inr 8%Z, st)
  | Some cpu | None => _get_optimal_batch_size caps st = (inr 4%Z, st)
  end.
Proof.
  unfold _get_optimal_batch_size, try_except, bind, call, get_self.
  cbv beta.
  destruct (device (self st)) as [[| |]|]; cbn [device_is Device_eqb];
    try reflexivity.
  destruct (torch_import caps (world st)) as [[e|u] w1]; [reflexivity|].
  cbn [world after].
  destruct (cuda_total_memory caps w1) as [[e|bytes] w2]; [reflexivity|].
  destruct (8 * 10 ^ 9 <? bytes)%Z; [reflexivity|].
  destruct (4 * 10 ^ 9 <? bytes)%Z; reflexivity.
Qed.

Lemma batch_size_never_raises : never_raises (_get_optimal_batch_size caps).
Proof.
  intros st. pose proof (optimal_batch_size_table st) as H.
  destruct (device (self st)) as [[| |]|]; try (eexists _, _; exact H).
  destruct (torch_import caps (world st)) as [[e|u] w1];
    [eexists _, _; exact H|].
  destruct (cuda_total_memory caps w1) as [[e|bytes] w2];
    eexists _, _; exact H.
Qed.

End BatchSize.

(** ** Cleanup *)

Section Cleanup.
Context {W : Type} (caps : Caps W).

Lemma cleanup_never_raises : never_raises (cleanup_models caps).
Proof.
  unfold cleanup_models. apply never_raises_try.
  intros _. apply never_raises_ret.
Qed.

(** When [import torch] raises, nothing else is done. *)
Lemma cleanup_import_failed (st : Sys W) (e : PyExc) (w1 : W) :
  torch_import caps (world st) = (inl e, w1) ->
  cleanup_models caps st = (inr tt, after st ImportTorch w1).
Proof.
  intros H. unfold cleanup_models, try_except.
  unfold bind at 1. unfold call at 1. now rewrite H.
Qed.

(** When [import torch] returns, the three references are dropped,
    whatever the later steps do. *)
Lemma cleanup_releases (st : Sys W) (u : unit) (w1 : W) :
  torch_import caps (world st) = (inr u, w1) ->
  is_empty (self (snd (cleanup_models caps st))) = true.
Proof.
  intros H. destruct st as [[[m|] [a|] [md|] d] w tr]; cbn [world] in H.
  all: unfold cleanup_models, set_model, set_align_model, set_metadata,
    try_except, bind, call, ret, put_self, get_self, after.
  all: cbn [world self]; rewrite H; run_all; reflexivity.
Qed.

(** An empty service stays empty. *)
Lemma cleanup_keeps_empty :
  triple (fun s => is_empty s = true) any any (cleanup_models caps).
Proof.
  unfold cleanup_models, set_model, set_align_model, set_metadata.
  triple_with
    ltac:(cbv beta in *;
          match goal with
          | H : is_empty ?s = true |- _ =>
              unfold is_empty in *; cbn;
              destruct (model s), (align_model s), (metadata s);
              first [reflexivity | discriminate H]
          end)
    ltac:(exact Logic.I) ltac:(exact Logic.I).
Qed.

(** Whenever the first [import torch] returns, two calls in a row both
    return normally and both end on an empty service. *)
Lemma cleanup_twice (st : Sys W) (u : unit) (w1 : W) :
  torch_import caps (world st) = (inr u, w1) ->
  let st1 := snd (cleanup_models caps st) in
  let st2 := snd (cleanup_models caps st1) in
  fst (cleanup_models caps st) = inr tt
  /\ is_empty (self st1) = true
  /\ fst (cleanup_models caps st1) = inr tt
  /\ is_empty (self st2) = true.
Proof.
  intros H st1 st2.
  assert (Hr : forall s, fst (cleanup_models caps s) = inr tt).
  { intros s. destruct (cleanup_never_raises s) as ([] & s' & E).
    now rewrite E. }
  assert (H1 : is_empty (self st1) = true) by exact (cleanup_releases st u w1 H).
  repeat split; try apply Hr; try exact H1.
  exact (proj1 (cleanup_keeps_empty st1 H1)).
Qed.

(** [__exit__] returns [False] and never raises. *)
Lemma exit_returns_false (st : Sys W) :
  fst (__exit__ caps st) = inr false.
Proof.
  unfold __exit__, bind.
  destruct (cleanup_never_raises st) as ([] & st' & E). now rewrite E.
Qed.

End Cleanup.

(** C1 at the failing input: a service on the CPU holding a main model, on
    a host where [import torch] raises.  [cleanup_models] returns without
    raising, has called nothing but the import, and the service still
    holds the model: it is not empty. *)
Theorem cleanup_without_torch_keeps_model :
  cleanup_models (Host.caps Host.no_torch) (Host.ready cpu "base")
  = (inr tt,
     mkSys (mkService (Some (mkModel 7 (Some "base"))) None None (Some cpu))
       tt [ImportTorch])
  /\ is_empty
       (self (snd (cleanup_models (Host.caps Host.no_torch)
                     (Host.ready cpu "base")))) = false.
Proof. split; reflexivity. Qed.

(** ** [transcribe_audio] never raises *)

Section Boundary.
Context {W : Type} (caps : Caps W).

Lemma load_model_never_raises (model_size : string) :
  never_raises (load_model caps model_size).
Proof.
  unfold load_model. apply never_raises_try.
  intros _. apply never_raises_ret.
Qed.

(** A failed [load_model] gives the load failure, whatever made it fail. *)
Lemma transcribe_load_failed
  (path : string) (st st3 : Sys W) (w1 w2 : W) (size : Z) :
  os_path_exists caps path (world st) = (inr true, w1) ->
  os_path_getsize caps path w1 = (inr size, w2) ->
  size <> 0%Z ->
  model (self st) = None ->
  load_model caps "base"
    (after (after st (PathExists path) w1) (PathGetsize path) w2)
  = (inr false, st3) ->
  transcribe_audio caps path st
  = (inr (Failed "Failed to load WhisperX model"), st3).
Proof.
  intros H1 H2 Hsize Hm H3. apply Z.eqb_neq in Hsize.
  unfold transcribe_audio, try_except, transcribe_body.
  unfold bind at 1. unfold call at 1. rewrite H1. cbn [negb].
  unfold bind at 1. unfold call at 1. cbn [world after]. rewrite H2.
  rewrite Hsize.
  unfold bind at 1. unfold get_self at 1. cbn [self after].
  rewrite Hm. cbn [obj_truthy negb].
  unfold bind at 1.
  change (mkSys (self st) w2 ((trace st ++ [PathExists path])
                              ++ [PathGetsize path])%list)
    with (after (after st (PathExists path) w1) (PathGetsize path) w2).
  rewrite H3. reflexivity.
Qed.

(** C10, as the code has it.  [transcribe_audio] returns a result for
    every path and every behaviour of the external libraries.  An
    [ImportError] that leaves its [try] block gives the failure "WhisperX
    not properly installed"; any other exception that leaves it gives
    "Transcription failed: <message>".  An exception raised inside
    [load_model] or inside [_get_optimal_batch_size] does not leave that
    method, so it does not reach these handlers: a load that failed, an
    [ImportError] of [import whisperx] included, gives "Failed to load
    WhisperX model". *)
Theorem transcribe_audio_never_raises (path : string) (st : Sys W) :
  (exists r st', transcribe_audio caps path st = (inr r, st'))
  /\ match transcribe_body caps path st with
     | (inr r, st') => transcribe_audio caps path st = (inr r, st')
     | (inl (ImportError _), st') =>
         transcribe_audio caps path st
         = (inr (Failed "WhisperX not properly installed"), st')
     | (inl (OtherException m), st') =>
         transcribe_audio caps path st
         = (inr (Failed ("Transcription failed: " ++ m)), st')
     end
  /\ never_raises (load_model caps "base")
  /\ never_raises (_get_optimal_batch_size caps)
  /\ (forall st3 w1 w2 size,
        os_path_exists caps path (world st) = (inr true, w1) ->
        os_path_getsize caps path w1 = (inr size, w2) ->
        size <> 0%Z ->
        model (self st) = None ->
        load_model caps "base"
          (after (after st (PathExists path) w1) (PathGetsize path) w2)
        = (inr false, st3) ->
        transcribe_audio caps path st
        = (inr (Failed "Failed to load WhisperX model"), st3)).
Proof.
  assert (Hcases :
    match transcribe_body caps path st with
    | (inr r, st') => transcribe_audio caps path st = (inr r, st')
    | (inl (ImportError _), st') =>
        transcribe_audio caps path st
        = (inr (Failed "WhisperX not properly installed"), st')
    | (inl (OtherException m), st') =>
        transcribe_audio caps path st
        = (inr (Failed ("Transcription failed: " ++ m)), st')
    end).
  { unfold transcribe_audio, try_except.
    destruct (transcribe_body caps path st) as [[[m|m]|r] st'];
      reflexivity. }
  split; [|split; [exact Hcases|]].
  - destruct (transcribe_body caps path st) as [[[m|m]|r] st'];
      eexists _, _; exact Hcases.
  - split; [apply load_model_never_raises|].
    split; [apply batch_size_never_raises|].
    intros st3 w1 w2 size. apply transcribe_load_failed.
Qed.

End Boundary.

(** ** Worked runs on concrete hosts *)

Section Runs.
Local Open Scope list_scope.

(** C2 on the laptop: the service is on [mps]; both models are loaded on
    the CPU, the returned handles are held and the device stays [mps]. *)
Lemma load_model_on_mps_run :
  device (self (Host.fresh mps)) = Some mps
  /\ load_model (Host.caps Host.laptop) "base" (Host.fresh mps)
     = (inr true,
        mkSys (mkService (Some (mkModel 1 (Some "base"))) (Some (mkAlign 2))
                 (Some (mkMetadata [("language", "en")])) (Some mps))
          tt [ImportWhisperx; LoadModel "base" (Some cpu);
              LoadAlignModel "en" (Some cpu)])
  /\ device (self (snd (load_model (Host.caps Host.laptop) "base"
                          (Host.fresh mps)))) = Some mps.
Proof.
  pose proof (load_model_on_mps (Host.caps Host.laptop) "base"
                (Host.fresh mps) eq_refl) as H.
  cbv zeta in H. destruct H as (Hrun & _ & Hdev & _).
  split; [reflexivity|]. split; [exact Hrun | exact Hdev].
Defined.

(** C2 as stated fails: on [mps] the main model is loaded with device
    ["cpu"], and no load on ["mps"] is made. *)
Lemma main_model_on_mps_goes_to_cpu :
  let run := load_model (Host.caps Host.laptop) "base" (Host.fresh mps) in
  device (self (Host.fresh mps)) = Some mps
  /\ fst run = inr true
  /\ trace (snd run)
     = [ImportWhisperx; LoadModel "base" (Some cpu);
        LoadAlignModel "en" (Some cpu)]
  /\ ~ In (LoadModel "base" (Some mps)) (trace (snd run)).
Proof.
  cbv zeta. split; [reflexivity|]. split; [reflexivity|].
  split; [reflexivity|].
  intros [H|[H|[H|[]]]]; discriminate H.
Qed.

(** C3 as stated fails: on [cuda] with unreadable memory the batch size
    is 16, not 8. *)
Lemma unreadable_memory_gives_16 :
  let run := _get_optimal_batch_size (Host.caps Host.blind_gpu)
               (Host.fresh cuda) in
  fst (cuda_total_memory (Host.caps Host.blind_gpu) tt)
  = inl (OtherException "CUDA driver error")
  /\ fst run = inr 16%Z
  /\ fst run <> inr 8%Z.
Proof.
  cbv zeta. split; [reflexivity|]. split; [reflexivity|]. discriminate.
Qed.

(** C4 on the laptop: a service holding handle 7 of size "base" that is
    asked for "base" ends holding the newly returned handle 1; the same
    service loads nothing while it transcribes. *)
Lemma transcribe_when_ready_run :
  load_model (Host.caps Host.laptop) "base" (Host.ready cpu "base")
  = (inr true,
     mkSys (mkService (Some (mkModel 1 (Some "base"))) (Some (mkAlign 2))
              (Some (mkMetadata [("language", "en")])) (Some cpu))
       tt [ImportWhisperx; LoadModel "base" (Some cpu);
           LoadAlignModel "en" (Some cpu)])
  /\ exists evs,
       trace (snd (transcribe_audio (Host.caps Host.laptop) "a.wav"
                     (Host.ready cpu "base")))
       = trace (Host.ready cpu "base") ++ evs
       /\ Forall (fun ev => load_event ev = false) evs.
Proof.
  pose proof (load_model_always_loads (Host.caps Host.laptop) "base"
                (Host.ready cpu "base")) as H.
  cbv zeta in H. destruct H as (Hrun & _ & _ & _ & Hkeep).
  split; [exact Hrun|].
  apply Hkeep. discriminate.
Defined.

(** C4 as stated fails.  A service holding a model of size "base" that is
    asked to load "base" calls [whisperx.load_model] again and ends with
    another handle; asked to load "large" it makes no release call before
    loading. *)
Lemma load_model_reloads_and_never_releases :
  let same := load_model (Host.caps Host.laptop) "base"
                (Host.ready cpu "base") in
  let other := load_model (Host.caps Host.laptop) "large"
                 (Host.ready cpu "base") in
  is_ready (self (Host.ready cpu "base")) = true
  /\ fst same = inr true
  /\ trace (snd same)
     = [ImportWhisperx; LoadModel "base" (Some cpu);
        LoadAlignModel "en" (Some cpu)]
  /\ model (self (snd same)) <> model (self (Host.ready cpu "base"))
  /\ trace (snd other)
     = [ImportWhisperx; LoadModel "large" (Some cpu);
        LoadAlignModel "en" (Some cpu)]
  /\ existsb release_event (trace (snd other)) = false.
Proof.
  cbv zeta. repeat (split; [reflexivity|]).
  split; [discriminate|]. split; reflexivity.
Qed.

(** The batch sizes of four machines: 10 GB, 6 GB and exactly 4 GB on
    [cuda], and the laptop on [mps] and on [cpu]. *)
Lemma batch_size_examples :
  fst (_get_optimal_batch_size (Host.caps (Host.gpu (10 * 10 ^ 9)))
         (Host.fresh cuda)) = inr 32%Z
  /\ fst (_get_optimal_batch_size (Host.caps (Host.gpu (6 * 10 ^ 9)))
            (Host.fresh cuda)) = inr 16%Z
  /\ fst (_get_optimal_batch_size (Host.caps (Host.gpu (4 * 10 ^ 9)))
            (Host.fresh cuda)) = inr 8%Z
  /\ fst (_get_optimal_batch_size (Host.caps Host.laptop)
            (Host.fresh mps)) = inr 8%Z
  /\ fst (_get_optimal_batch_size (Host.caps Host.laptop)
            (Host.fresh cpu)) = inr 4%Z.
Proof. repeat split; vm_compute; reflexivity. Qed.

(** A whole run on the laptop: load, transcribe, align, assemble. *)
Lemma transcribe_hello_world :
  fst (transcribe_audio (Host.caps Host.laptop) "a.wav" (Host.fresh cpu))
  = inr (Succeeded "Hello, world" 2 "en" "base" (Some cpu))
  /\ trace (snd (transcribe_audio (Host.caps Host.laptop) "a.wav"
                   (Host.fresh cpu)))
     = [PathExists "a.wav"; PathGetsize "a.wav"; ImportWhisperx;
        LoadModel "base" (Some cpu); LoadAlignModel "en" (Some cpu);
        ImportWhisperx; LoadAudio "a.wav"; Transcribe 4; Align (Some cpu)].
Proof. split; vm_compute; reflexivity. Qed.

(** C6 on the laptop: "missing.wav" is not there. *)
Lemma transcribe_missing_file_run :
  transcribe_audio (Host.caps Host.laptop) "missing.wav" (Host.fresh cpu)
  = (inr (Failed "Audio file not found: missing.wav"),
     mkSys (self (Host.fresh cpu)) tt [PathExists "missing.wav"]).
Proof.
  apply (transcribe_missing_file (Host.caps Host.laptop) "missing.wav"
           (Host.fresh cpu) tt).
  reflexivity.
Defined.

(** C7 on the laptop: "empty.wav" is there and holds no byte. *)
Lemma transcribe_empty_file_run :
  transcribe_audio (Host.caps Host.laptop) "empty.wav" (Host.fresh cpu)
  = (inr (Failed "Audio file is empty"),
     mkSys (self (Host.fresh cpu)) tt
       [PathExists "empty.wav"; PathGetsize "empty.wav"]).
Proof.
  apply (transcribe_empty_file (Host.caps Host.laptop) "empty.wav"
           (Host.fresh cpu) tt tt); reflexivity.
Defined.

(** C8 on the host whose recording holds no speech. *)
Lemma transcribe_no_speech_run :
  exists st',
    transcribe_audio (Host.caps Host.silent) "a.wav" (Host.fresh cpu)
    = (inr (Failed "No speech detected in audio"), st').
Proof.
  eexists.
  eapply (transcribe_no_speech (Host.caps Host.silent) "a.wav"
            (Host.fresh cpu));
    [ reflexivity | reflexivity | discriminate | reflexivity | reflexivity
    | reflexivity | discriminate | reflexivity | reflexivity | reflexivity
    | reflexivity ].
Defined.

(** C10 on the laptop without whisperx: the load fails and the result says
    so. *)
Lemma transcribe_without_whisperx_run :
  exists st',
    transcribe_audio (Host.caps Host.no_whisperx) "a.wav" (Host.fresh cpu)
    = (inr (Failed "Failed to load WhisperX model"), st').
Proof.
  eexists.
  eapply (proj2 (proj2 (proj2 (proj2 (transcribe_audio_never_raises
                                        (Host.caps Host.no_whisperx) "a.wav"
                                        (Host.fresh cpu))))));
    [ reflexivity | reflexivity | discriminate | reflexivity | reflexivity ].
Defined.

(** C10 as stated fails: [import whisperx] raises an [ImportError], and
    the result is the load failure, not "WhisperX not properly
    installed". *)
Lemma import_error_in_load_model_is_a_load_failure :
  let run := transcribe_audio (Host.caps Host.no_whisperx) "a.wav"
               (Host.fresh cpu) in
  fst (whisperx_import (Host.caps Host.no_whisperx) tt)
  = inl (ImportError "No module named 'whisperx'")
  /\ fst run = inr (Failed "Failed to load WhisperX model")
  /\ fst run <> inr (Failed "WhisperX not properly installed").
Proof.
  cbv zeta. split; [reflexivity|]. split; [reflexivity|]. discriminate.
Qed.

End Runs.

(** ** Device selection *)

Section Selection.
Context {W : Type} (caps : Caps W).
Local Open Scope list_scope.

Ltac unfold_setup :=
  unfold __init__, _setup_device, set_device, try_except, bind, call, ret,
    raise, put_self, get_self, after.

(** X1. [_setup_device] never selects an accelerator that did not answer:
    when it returns with [cuda] recorded, [torch.cuda.is_available]
    answered [True] in this run; with [mps] recorded, CUDA answered
    [False], [torch.backends] has [mps] and the MPS probe answered [True].
    It never returns without a device. *)
Theorem setup_device_sound (st st' : Sys W) :
  _setup_device caps st = (inr tt, st') ->
  match device (self st') with
  | Some cuda =>
      exists w1 w2,
        torch_import caps (world st) = (inr tt, w1)
        /\ cuda_is_available caps w1 = (inr true, w2)
  | Some mps =>
      exists w1 w2 w3 w4,
        torch_import caps (world st) = (inr tt, w1)
        /\ cuda_is_available caps w1 = (inr false, w2)
        /\ hasattr_backends_mps caps w2 = (inr true, w3)
        /\ mps_is_available caps w3 = (inr true, w4)
  | Some cpu => True
  | None => False
  end.
Proof.
  unfold_setup. run_all; cbn; intros H; inversion H; subst; cbn in *;
    try discriminate;
    repeat match goal with u : unit |- _ => destruct u end;
    eauto 10.
Qed.

(** X2. The order of preference.  When CUDA answers [True] (and its name
    can be read) the device is [cuda] and MPS is not probed at all; when
    [import torch] raises an [ImportError] the device is [cpu] and nothing
    is probed. *)
Theorem setup_device_prefers_cuda (st : Sys W) :
  (forall w1 w2 w3 name,
      torch_import caps (world st) = (inr tt, w1) ->
      cuda_is_available caps w1 = (inr true, w2) ->
      cuda_get_device_name caps w2 = (inr name, w3) ->
      _setup_device caps st
      = (inr tt,
         mkSys (mkService (model (self st)) (align_model (self st))
                  (metadata (self st)) (Some cuda)) w3
           (trace st ++ [ImportTorch; CudaIsAvailable; CudaGetDeviceName])))
  /\ (forall w1 msg,
        torch_import caps (world st) = (inl (ImportError msg), w1) ->
        _setup_device caps st
        = (inr tt,
           mkSys (mkService (model (self st)) (align_model (self st))
                    (metadata (self st)) (Some cpu)) w1
             (trace st ++ [ImportTorch]))).
Proof.
  split.
  - intros w1 w2 w3 name H1 H2 H3. unfold_setup.
    rewrite H1. cbn. rewrite H2. cbn. rewrite H3. cbn.
    now rewrite <- !app_assoc.
  - intros w1 msg H1. unfold_setup. rewrite H1. reflexivity.
Qed.

(** X3. Only an [ImportError] is handled while the device is chosen.  When
    [torch.cuda.is_available] raises anything else, [__init__] raises it:
    no service is constructed and no device is recorded. *)
Theorem init_propagates_probe_failure (st : Sys W) (w1 w2 : W) (msg : string) :
  torch_import caps (world st) = (inr tt, w1) ->
  cuda_is_available caps w1 = (inl (OtherException msg), w2) ->
  fst (__init__ caps st) = inl (OtherException msg)
  /\ device (self (snd (__init__ caps st))) = None.
Proof.
  intros H1 H2. unfold_setup. cbn. rewrite H1. cbn. rewrite H2. cbn.
  now split.
Qed.

End Selection.

(** ** Loading, continued *)

Section AlignmentLoading.
Context {W : Type} (caps : Caps W).
Local Open Scope list_scope.

(** X4. A failed alignment load is not fatal.  When the main model loads
    and [whisperx.load_align_model] raises, [load_model] returns [True];
    the service holds the new main model and neither an alignment model
    nor metadata, whatever it held before. *)
Theorem load_model_without_alignment
  (model_size : string) (st : Sys W) (w1 w2 w3 : W)
  (m : ModelHandle) (e : PyExc) :
  let d := device_to_use (device (self st)) in
  whisperx_import caps (world st) = (inr tt, w1) ->
  whisperx_load_model caps model_size d w1 = (inr m, w2) ->
  whisperx_load_align_model caps "en" d w2 = (inl e, w3) ->
  load_model caps model_size st
  = (inr true,
     mkSys (mkService (Some m) None None (device (self st))) w3
       (trace st ++ [ImportWhisperx; LoadModel model_size d;
                     LoadAlignModel "en" d])).
Proof.
  intros d H1 H2 H3.
  pose proof (load_model_run caps model_size st) as Hrun. cbv zeta in Hrun.
  fold d in Hrun. rewrite H1, H2, H3 in Hrun. exact Hrun.
Qed.

Lemma load_model_paired (model_size : string) (st : Sys W) :
  paired (self st) -> paired (self (snd (load_model caps model_size st))).
Proof.
  intros Hp.
  pose proof (load_model_run caps model_size st) as Hrun. cbv zeta in Hrun.
  destruct (whisperx_import caps (world st)) as [[e|u] w1];
    [now rewrite Hrun|].
  destruct (whisperx_load_model caps model_size _ w1) as [[e|m] w2];
    [now rewrite Hrun|].
  destruct (whisperx_load_align_model caps "en" _ w2) as [[e|am] w3];
    rewrite Hrun; unfold paired; cbn; split; congruence.
Qed.

Lemma load_model_paired_triple (model_size : string) :
  triple paired any any (load_model caps model_size).
Proof.
  intros st Hp. split; [now apply load_model_paired|].
  split; [|destruct (fst _); exact Logic.I].
  destruct (load_model_frame caps (device (self st)) model_size st eq_refl)
    as (_ & Hev & _).
  exact Hev.
Qed.

Lemma batch_size_paired :
  triple paired any any (_get_optimal_batch_size caps).
Proof.
  unfold _get_optimal_batch_size.
  triple_with ltac:(idtac) ltac:(exact Logic.I) ltac:(exact Logic.I).
Qed.

Lemma transcribe_audio_paired (path : string) :
  triple paired any any (transcribe_audio caps path).
Proof.
  pose proof (load_model_paired_triple "base") as Hload.
  pose proof batch_size_paired as Hbatch.
  unfold transcribe_audio, transcribe_body, get_segments.
  remember (load_model caps "base") as load eqn:E1. clear E1.
  remember (_get_optimal_batch_size caps) as batch eqn:E2. clear E2.
  triple_with ltac:(idtac) ltac:(exact Logic.I) ltac:(exact Logic.I);
    assumption.
Qed.

Lemma cleanup_models_paired (st : Sys W) :
  paired (self st) -> paired (self (snd (cleanup_models caps st))).
Proof.
  intros Hp.
  destruct (torch_import caps (world st)) as [[e|u] w1] eqn:E.
  - now rewrite (cleanup_import_failed caps st e w1 E).
  - pose proof (cleanup_releases caps st u w1 E) as He.
    unfold is_empty in He. unfold paired.
    destruct (model (self (snd (cleanup_models caps st))));
      destruct (align_model (self (snd (cleanup_models caps st))));
      destruct (metadata (self (snd (cleanup_models caps st))));
      try discriminate He; split; congruence.
Qed.

(** X5. The alignment model and its metadata come and go together.  A new
    service has neither; [load_model], [transcribe_audio] and
    [cleanup_models] each end with both set or both [None] when they
    started so, whether they return or fail inside. *)
Theorem alignment_handles_paired
  (st : Sys W) (model_size path : string) :
  paired (self (snd (__init__ caps st)))
  /\ (paired (self st) ->
      paired (self (snd (load_model caps model_size st)))
      /\ paired (self (snd (transcribe_audio caps path st)))
      /\ paired (self (snd (cleanup_models caps st)))).
Proof.
  split.
  - unfold __init__, _setup_device, set_device, try_except, bind, call, ret,
      raise, put_self, get_self, after.
    run_all; cbn; unfold paired; cbn; tauto.
  - intros Hp. split; [now apply load_model_paired|].
    split; [exact (proj1 (transcribe_audio_paired path st Hp))|].
    now apply cleanup_models_paired.
Qed.

End AlignmentLoading.

(** ** The transcription pipeline, stage by stage *)

Section PipelineFrames.
Context {W : Type} (caps : Caps W).
Local Open Scope list_scope.

Lemma batch_size_keeps_service (s0 : Service) :
  triple (fun s => s = s0) any any (_get_optimal_batch_size caps).
Proof.
  unfold _get_optimal_batch_size.
  triple_with ltac:(idtac) ltac:(exact Logic.I) ltac:(exact Logic.I).
Qed.

Lemma transcribe_keeps_service (s0 : Service) (path : string) :
  holds_model s0 ->
  triple (fun s => s = s0) any any (transcribe_audio caps path).
Proof.
  intros Hm. pose proof (batch_size_keeps_service s0) as Hbatch.
  unfold transcribe_audio, transcribe_body, get_segments.
  remember (load_model caps "base") as load eqn:E1. clear E1.
  remember (_get_optimal_batch_size caps) as batch eqn:E2. clear E2.
  triple_with ltac:(idtac) ltac:(exact Logic.I) ltac:(exact Logic.I);
    try assumption.
  all: exfalso; subst; unfold holds_model in Hm;
    destruct (model s0); [discriminate | now apply Hm].
Qed.

(** X6. With a main model held, [transcribe_audio] leaves the service
    object exactly as it found it, on every path: the model, the alignment
    model, the metadata and the device are the same afterwards.  It never
    releases or replaces what is loaded. *)
Theorem transcribe_audio_keeps_loaded_service (path : string) (st : Sys W) :
  holds_model (self st) ->
  self (snd (transcribe_audio caps path st)) = self st.
Proof.
  intros Hm.
  exact (proj1 (transcribe_keeps_service (self st) path Hm st eq_refl)).
Qed.

Lemma batch_size_assembled (I0 : Service -> Prop) :
  triple I0 any any (_get_optimal_batch_size caps).
Proof.
  unfold _get_optimal_batch_size.
  triple_with ltac:(idtac) ltac:(exact Logic.I) ltac:(exact Logic.I).
Qed.

Lemma transcribe_audio_assembled (path : string) :
  triple (fun _ => True) any assembled (transcribe_audio caps path).
Proof.
  pose proof (batch_size_assembled (fun _ => True)) as Hbatch.
  assert (Hload : triple (fun _ : Service => True) any any
                    (load_model caps "base")).
  { unfold load_model, set_model, set_align_model, set_metadata.
    triple_with ltac:(exact Logic.I) ltac:(exact Logic.I)
                ltac:(exact Logic.I). }
  unfold transcribe_audio, transcribe_body, get_segments.
  remember (load_model caps "base") as load eqn:E1. clear E1.
  remember (_get_optimal_batch_size caps) as batch eqn:E2. clear E2.
  triple_with ltac:(idtac) ltac:(exact Logic.I)
              ltac:(first [exact Logic.I
                          | cbn; eexists; split; reflexivity]);
    assumption.
Qed.

(** X9. Whatever the external libraries answer, a successful result of
    [transcribe_audio] carries the text that [_extract_text] assembles from
    some list of segments and counts exactly those segments; its text has
    no whitespace at either end. *)
Theorem successful_text_is_assembled (path : string) (st : Sys W) :
  match fst (transcribe_audio caps path st) with
  | inr (Succeeded text n _ _ _) =>
      (exists segs, text = _extract_text segs /\ n = length segs)
      /\ PyStr.lead_ws text = false
      /\ PyStr.trail_ws text = false
  | _ => True
  end.
Proof.
  destruct (transcribe_audio_assembled path st Logic.I) as (_ & _ & HQ).
  destruct (fst (transcribe_audio caps path st)) as [e|[err|text n l ms d]];
    try exact Logic.I.
  destruct HQ as (segs & -> & ->).
  split; [now exists segs|].
  rewrite extract_text_eq.
  exact (assemble_spec_clean _ (trimmed_texts_tight segs)).
Qed.

Lemma load_model_device_of_call (d : option Device) :
  triple (on_device d) (device_of_call d) any (load_model caps "base").
Proof.
  unfold load_model, set_model, set_align_model, set_metadata.
  triple_with
    ltac:(unfold on_device in *; cbn [device]; assumption)
    ltac:(unfold on_device, device_to_use in *; subst; cbn; auto)
    ltac:(exact Logic.I).
Qed.

Lemma transcribe_device_of_call (d : option Device) (path : string) :
  triple (on_device d) (device_of_call d) any (transcribe_audio caps path).
Proof.
  pose proof (load_model_device_of_call d) as Hload.
  assert (Hbatch : triple (on_device d) (device_of_call d) any
                     (_get_optimal_batch_size caps)).
  { unfold _get_optimal_batch_size.
    triple_with ltac:(idtac) ltac:(exact Logic.I) ltac:(exact Logic.I). }
  unfold transcribe_audio, transcribe_body, get_segments.
  remember (load_model caps "base") as load eqn:E1. clear E1.
  remember (_get_optimal_batch_size caps) as batch eqn:E2. clear E2.
  triple_with ltac:(idtac)
              ltac:(first [exact Logic.I
                          | unfold on_device in *; cbn; congruence])
              ltac:(exact Logic.I);
    assumption.
Qed.

(** X12. Where [transcribe_audio] sends its work, on a service whose
    device is [d].  A load it makes is of size "base" (and language "en")
    on [device_to_use d], which is the CPU when [d] is [mps]; an alignment
    it runs is given [d] itself.  On [mps] the models are therefore loaded
    on the CPU and the alignment is asked to run on [mps]. *)
Theorem transcribe_audio_call_devices (path : string) (st : Sys W) :
  exists evs,
    trace (snd (transcribe_audio caps path st)) = trace st ++ evs
    /\ Forall (device_of_call (device (self st))) evs.
Proof.
  destruct (transcribe_device_of_call (device (self st)) path st eq_refl)
    as (_ & Hev & _).
  exact Hev.
Qed.

End PipelineFrames.

Section Stages.
Context {W : Type} (caps : Caps W).
Local Open Scope list_scope.

(** The run up to the decoding of the audio: the file is there and not
    empty, a model is held or loads, [import whisperx] returns. *)
Variables (path : string) (st st3 : Sys W) (w1 w2 w4 w5 : W) (size : Z).
Hypothesis Hexists : os_path_exists caps path (world st) = (inr true, w1).
Hypothesis Hgetsize : os_path_getsize caps path w1 = (inr size, w2).
Hypothesis Hsize : size <> 0%Z.
Hypothesis Hloaded :
  (if negb (obj_truthy (model (self st)))
   then load_model caps "base" else ret true)
    (after (after st (PathExists path) w1) (PathGetsize path) w2)
  = (inr true, st3).
Hypothesis Himport : whisperx_import caps (world st3) = (inr tt, w4).

Ltac to_decode :=
  let Hz := fresh in
  pose proof (proj2 (Z.eqb_neq size 0) Hsize) as Hz;
  unfold transcribe_audio, try_except, transcribe_body;
  unfold bind at 1; unfold call at 1; rewrite Hexists; cbn [negb];
  unfold bind at 1; unfold call at 1; cbn [world after]; rewrite Hgetsize;
  rewrite Hz;
  unfold bind at 1; unfold get_self at 1; cbn [self after];
  unfold bind at 1;
  change (mkSys (self st) w2 ((trace st ++ [PathExists path])
                              ++ [PathGetsize path]))
    with (after (after st (PathExists path) w1) (PathGetsize path) w2);
  rewrite Hloaded; cbn [negb];
  unfold bind at 1; unfold call at 1; rewrite Himport;
  unfold bind at 1; unfold call at 1; cbn [world after].

(** X7. When [whisperx.load_audio] returns [None] or an array without
    samples, [transcribe_audio] returns the failure "Could not load audio
    data"; the batch size is not computed, [model.transcribe] is not
    called, and the service keeps what it holds. *)
Theorem transcribe_undecodable_audio (loaded : option Audio) :
  whisperx_load_audio caps path w4 = (inr loaded, w5) ->
  audio_missing loaded = true ->
  transcribe_audio caps path st
  = (inr (Failed "Could not load audio data"),
     after (after st3 ImportWhisperx w4) (LoadAudio path) w5).
Proof.
  intros Haudio Hmissing. to_decode. rewrite Haudio.
  destruct loaded as [audio|]; [|reflexivity].
  cbn [audio_missing] in Hmissing. rewrite Hmissing. reflexivity.
Qed.

(** X8. When [whisperx.load_audio] raises, the exception reaches the
    handlers of [transcribe_audio]: an [ImportError] gives "WhisperX not
    properly installed", anything else gives "Transcription failed: "
    followed by the message of the exception. *)
Theorem transcribe_decode_raises (e : PyExc) :
  whisperx_load_audio caps path w4 = (inl e, w5) ->
  transcribe_audio caps path st
  = (inr (Failed (match e with
                  | ImportError _ => "WhisperX not properly installed"
                  | OtherException m => ("Transcription failed: " ++ m)%string
                  end)),
     after (after st3 ImportWhisperx w4) (LoadAudio path) w5).
Proof.
  intros Haudio. to_decode. rewrite Haudio. now destruct e.
Qed.

(** The run up to the answer of [model.transcribe]. *)
Variables (audio : Audio) (batch : Z) (st6 : Sys W) (m : ModelHandle)
          (result : RawResult) (segs : list Segment) (w7 : W).
Hypothesis Haudio : whisperx_load_audio caps path w4 = (inr (Some audio), w5).
Hypothesis Hlen : audio_len audio <> 0.
Hypothesis Hbatch :
  _get_optimal_batch_size caps
    (after (after st3 ImportWhisperx w4) (LoadAudio path) w5)
  = (inr batch, st6).
Hypothesis Hmodel : model (self st6) = Some m.
Hypothesis Hinfer :
  model_transcribe caps m audio batch (world st6) = (inr result, w7).
Hypothesis Hsegs : raw_segments result = Some segs.
Hypothesis Hsome : segs <> [].

Ltac to_alignment :=
  let Hl := fresh in
  let Hn := fresh in
  pose proof (proj2 (Nat.eqb_neq (audio_len audio) 0) Hlen) as Hl;
  assert (Hn : no_segments result = false)
    by (unfold no_segments; rewrite Hsegs; destruct segs; congruence);
  to_decode; rewrite Haudio; rewrite Hl;
  unfold bind at 1;
  change (mkSys (self st3) w5 ((trace st3 ++ [ImportWhisperx])
                               ++ [LoadAudio path]))
    with (after (after st3 ImportWhisperx w4) (LoadAudio path) w5);
  rewrite Hbatch;
  unfold bind at 1; unfold get_self at 1; rewrite Hmodel;
  unfold bind at 1; unfold call at 1; rewrite Hinfer; rewrite Hn;
  unfold bind at 1; unfold get_self at 1; cbn [self after].

(** The value of the ["model_size"] entry. *)
Let reported_size : string :=
  match model_size_attr m with Some sz => sz | None => "unknown" end.

(** X11. Without an alignment model (or with empty metadata) the result is
    built from what [model.transcribe] returned: the assembled text of its
    segments, their number (at least one), its language or "en" when it
    names none, the size attribute of the model or "unknown", and the
    device of the service.  No alignment is called. *)
Theorem transcribe_unaligned :
  obj_truthy (align_model (self st6)) && dict_truthy (metadata (self st6))
  = false ->
  transcribe_audio caps path st
  = (inr (Succeeded (_extract_text segs) (length segs)
            (match raw_language result with Some l => l | None => "en" end)
            reported_size (device (self st6))),
     after st6 (Transcribe batch) w7)
  /\ 1 <= length segs.
Proof.
  intros Hnone. split; [|destruct segs; [congruence | cbn; lia]].
  to_alignment. unfold reported_size.
  destruct (align_model (self st6)) as [am|];
    destruct (metadata (self st6)) as [[[|item items]]|];
    try discriminate Hnone;
    unfold bind, ret, get_self, get_segments; cbn; rewrite Hsegs; cbn;
      rewrite Hmodel; reflexivity.
Qed.

Variables (am : AlignHandle) (md : Metadata) (w8 : W).
Hypothesis Halign : align_model (self st6) = Some am.
Hypothesis Hmeta : metadata (self st6) = Some md.
Hypothesis Hitems : meta_items md <> [].

Ltac to_aligned :=
  to_alignment; rewrite Halign, Hmeta;
  cbn [dict_truthy];
  destruct (meta_items md) as [|item items] eqn:Eitems; [congruence|];
  unfold try_except, bind, get_segments, call, ret, get_self;
  rewrite Hsegs; cbn [world self after].

(** X10. When [whisperx.align] raises, whatever it raises, the result is
    the one of the unaligned run: [transcribe_audio] succeeds with the
    segments, the language and the text of [model.transcribe]. *)
Theorem transcribe_alignment_failed (e : PyExc) :
  whisperx_align caps segs am md audio (device (self st6)) w7 = (inl e, w8) ->
  transcribe_audio caps path st
  = (inr (Succeeded (_extract_text segs) (length segs)
            (match raw_language result with Some l => l | None => "en" end)
            reported_size (device (self st6))),
     after (after st6 (Transcribe batch) w7) (Align (device (self st6))) w8).
Proof.
  intros Hfail. to_aligned. rewrite Hfail. cbn. rewrite Hsegs. cbn.
  rewrite Hmodel. reflexivity.
Qed.

(** X13. When [whisperx.align] returns, its answer replaces the result of
    [model.transcribe] altogether: text and count come from the aligned
    segments, and the language is the one the aligned answer names, "en"
    when it names none, whatever language [model.transcribe] detected.  An
    aligned answer without a ["segments"] key makes the run fail with
    "Transcription failed: 'segments'". *)
Theorem transcribe_aligned (aligned : RawResult) :
  whisperx_align caps segs am md audio (device (self st6)) w7
  = (inr aligned, w8) ->
  transcribe_audio caps path st
  = (inr (match raw_segments aligned with
          | Some segs' =>
              Succeeded (_extract_text segs') (length segs')
                (match raw_language aligned with
                 | Some l => l
                 | None => "en"
                 end)
                reported_size (device (self st6))
          | None => Failed "Transcription failed: 'segments'"
          end),
     after (after st6 (Transcribe batch) w7) (Align (device (self st6))) w8).
Proof.
  intros Hok. to_aligned. rewrite Hok. cbn.
  destruct (raw_segments aligned) as [segs'|]; cbn; [|reflexivity].
  rewrite Hmodel. reflexivity.
Qed.

End Stages.

(** ** Batch size and cleanup, continued *)

Section Housekeeping.
Context {W : Type} (caps : Caps W).
Local Open Scope list_scope.

(** X14. [_get_optimal_batch_size] always returns, and what it returns is
    one of 4, 8, 16 and 32; off [cuda] it calls nothing at all. *)
Theorem batch_size_range (st : Sys W) :
  (exists n st',
      _get_optimal_batch_size caps st = (inr n, st')
      /\ In n [4; 8; 16; 32]%Z
      /\ self st' = self st)
  /\ (device_is (device (self st)) cuda = false ->
      snd (_get_optimal_batch_size caps st) = st).
Proof.
  unfold _get_optimal_batch_size, try_except, bind, call, ret, get_self,
    after.
  split.
  - run_all; cbn; eexists _, _; (split; [reflexivity|]); cbn; tauto.
  - intros Hd. cbv beta. rewrite Hd.
    destruct (device_is (device (self st)) mps); reflexivity.
Qed.

(** X15. The calls of [cleanup_models] by device.  On a service whose
    device is [d] it calls [import torch] and [gc.collect], the CUDA probe
    and cache calls only when [d] is [cuda], the MPS ones only when [d] is
    [mps], and nothing else: on the CPU no accelerator is touched, and no
    model is ever loaded or run. *)
Theorem cleanup_models_calls (st : Sys W) :
  exists evs,
    trace (snd (cleanup_models caps st)) = trace st ++ evs
    /\ forallb (cleanup_call (device (self st))) evs = true.
Proof.
  destruct st as [[m a md [[| |]|]] w tr].
  all: unfold cleanup_models, set_model, set_align_model, set_metadata,
         try_except, bind, call, ret, put_self, get_self, after.
  all: run_all; cbn; rewrite <- ?app_assoc; cbn;
       eexists; (split; [reflexivity|]); reflexivity.
Qed.

(** X16. One [try] block guards every step of [cleanup_models].  When
    [gc.collect] raises, the method still returns normally and the three
    references are already dropped, but the cache of the accelerator is
    not cleared: no call follows the failed one. *)
Theorem cleanup_stops_at_gc_failure
  (st : Sys W) (w1 w2 : W) (e : PyExc) :
  torch_import caps (world st) = (inr tt, w1) ->
  gc_collect caps w1 = (inl e, w2) ->
  cleanup_models caps st
  = (inr tt,
     mkSys (mkService None None None (device (self st))) w2
       (trace st ++ [ImportTorch; GcCollect])).
Proof.
  intros H1 H2. destruct st as [[[m|] [a|] [md|] d] w tr]; cbn [world] in H1.
  all: unfold cleanup_models, set_model, set_align_model, set_metadata,
         try_except, bind, call, ret, put_self, get_self, after.
  all: cbn; rewrite H1; cbn; rewrite H2; cbn; now rewrite <- app_assoc.
Qed.

(** X17. [torch.cuda.synchronize] is called only after
    [torch.cuda.empty_cache] has returned: when the cache call raises on a
    [cuda] service, cleanup ends there, without synchronizing and without
    raising. *)
Theorem cleanup_stops_at_cache_failure
  (st : Sys W) (w1 w2 w3 w4 : W) (e : PyExc) :
  device (self st) = Some cuda ->
  torch_import caps (world st) = (inr tt, w1) ->
  gc_collect caps w1 = (inr tt, w2) ->
  cuda_is_available caps w2 = (inr true, w3) ->
  cuda_empty_cache caps w3 = (inl e, w4) ->
  cleanup_models caps st
  = (inr tt,
     mkSys (mkService None None None (Some cuda)) w4
       (trace st ++ [ImportTorch; GcCollect; CudaIsAvailable;
                     CudaEmptyCache])).
Proof.
  intros Hd H1 H2 H3 H4.
  destruct st as [[[m|] [a|] [md|] d] w tr]; cbn [world] in H1;
    cbn in Hd; subst d.
  all: unfold cleanup_models, set_model, set_align_model, set_metadata,
         try_except, bind, call, ret, put_self, get_self, after.
  all: cbn; rewrite H1; cbn; rewrite H2; cbn; rewrite H3; cbn;
       rewrite H4; cbn; now rewrite <- !app_assoc.
Qed.

End Housekeeping.

(** ** Diagnostics and the command line *)

Section CommandLine.
Context {W : Type} (caps : Caps W) (icaps : InfoCaps W).
Local Open Scope list_scope.

Ltac unfold_info :=
  unfold get_system_info, torch_info, filling, query, try_except, bind,
    call, ret, raise, get_self, after.

Lemma system_info_run (st : Sys W) :
  let run := get_system_info caps icaps st in
  self (snd run) = self st
  /\ (exists evs,
        trace (snd run) = trace st ++ evs
        /\ Forall (fun ev => In ev [ImportTorch; CudaIsAvailable;
                                    ImportWhisperx]) evs)
  /\ match fst run with
     | inr info =>
         dict_get "device" info = Some (VDevice (device (self st)))
         /\ dict_get "python_version" info = Some (VStr (sys_version icaps))
         /\ dict_get "platform" info = Some (VStr (sys_platform icaps))
         /\ (exists b, dict_get "whisperx_available" info = Some (VBool b))
         /\ (dict_get "pytorch_available" info = None
             \/ dict_get "pytorch_available" info = Some (VBool false))
     | inl _ => True
     end.
Proof.
  cbv zeta. unfold_info.
  run_all; cbn; rewrite <- ?app_assoc; cbn;
    (split; [reflexivity|]);
    (split; [eexists; split; [reflexivity|]; repeat constructor; cbn; tauto|]);
    try exact Logic.I;
    repeat split; eauto.
Qed.


(** X18. Whenever [get_system_info] returns, the dictionary has the device
    of the service under "device", the interpreter version and platform,
    and a boolean under "whisperx_available"; "pytorch_available" is either
    absent or [False].  Returning or raising, it leaves the service as it
    was, and the only calls it records are the two imports and the CUDA
    availability probe: it loads nothing. *)
Theorem system_info_contents (st : Sys W) :
  let run := get_system_info caps icaps st in
  self (snd run) = self st
  /\ (exists evs,
        trace (snd run) = trace st ++ evs
        /\ Forall (fun ev => In ev [ImportTorch; CudaIsAvailable;
                                    ImportWhisperx]) evs)
  /\ match fst run with
     | inr info =>
         dict_get "device" info = Some (VDevice (device (self st)))
         /\ dict_get "python_version" info = Some (VStr (sys_version icaps))
         /\ dict_get "platform" info = Some (VStr (sys_platform icaps))
         /\ (exists b, dict_get "whisperx_available" info = Some (VBool b))
         /\ (dict_get "pytorch_available" info = None
             \/ dict_get "pytorch_available" info = Some (VBool false))
     | inl _ => True
     end.
Proof. exact (system_info_run st). Qed.

(** X19. On a machine without torch the diagnostics still come back: when
    [import torch] raises an [ImportError] nothing of torch is read, and
    the dictionary is the three base entries, "pytorch_available": False
    and "whisperx_available", which tells whether [import whisperx]
    returned or raised an [ImportError]. *)
Theorem system_info_without_torch
  (st : Sys W) (w1 w2 : W) (msg : string) (answer : Outcome unit) :
  torch_import caps (world st) = (inl (ImportError msg), w1) ->
  whisperx_import caps w1 = (answer, w2) ->
  (forall m, answer <> inl (OtherException m)) ->
  get_system_info caps icaps st
  = (inr [("device", VDevice (device (self st)));
          ("python_version", VStr (sys_version icaps));
          ("platform", VStr (sys_platform icaps));
          ("pytorch_available", VBool false);
          ("whisperx_available", VBool (returned answer))],
     mkSys (self st) w2 (trace st ++ [ImportTorch; ImportWhisperx])).
Proof.
  intros H1 H2 Hans. unfold_info. cbn. rewrite H1. cbn. rewrite H2.
  destruct answer as [[m|m]|[]]; cbn; rewrite <- ?app_assoc;
    try reflexivity.
  now destruct (Hans m).
Qed.

Lemma transcribe_audio_total (path : string) :
  never_raises (transcribe_audio caps path).
Proof.
  unfold transcribe_audio. apply never_raises_try.
  intros [m|m]; apply never_raises_ret.
Qed.

Lemma exit_total (st : Sys W) :
  exists st', __exit__ caps st = (inr false, st')
              /\ st' = snd (cleanup_models caps st).
Proof.
  unfold __exit__, bind.
  destruct (cleanup_never_raises caps st) as ([] & st' & E).
  rewrite E. now exists st'.
Qed.

(** The [try] statement of [main]: one result is printed, or none when the
    construction of the service failed. *)
Lemma main_with_service_run (path : string) (st : Sys W) :
  (exists e st',
      main_with_service caps path st = (inr ([], inl e), st')
      /\ __init__ caps st = (inl e, st'))
  \/ (exists r st0 st1,
        fst (__init__ caps st) = inr tt
        /\ st0 = snd (__init__ caps st)
        /\ transcribe_audio caps path st0 = (inr r, st1)
        /\ main_with_service caps path st
           = (inr ([PrintedResult r],
                   inr (if success r then 0%Z else 1%Z)),
              snd (cleanup_models caps st1))).
Proof.
  unfold main_with_service.
  destruct (__init__ caps st) as [[e|[]] st0] eqn:Einit.
  - left. now exists e, st0.
  - right.
    destruct (transcribe_audio_total path st0) as (r & st1 & Et).
    rewrite Et.
    destruct (exit_total st1) as (st2 & Ex & ->). rewrite Ex.
    exists r, st0, st1.
    split; [reflexivity|]. split; [reflexivity|].
    split; [exact Et | reflexivity].
Qed.

(** X20. Unless it is asked for "--info", [main] ends by printing exactly
    one result dictionary and exits with code 0 when that result is a
    success and with code 1 when it is a failure, whatever torch and
    whisperx do, as long as [os.path.exists] answers. *)
Theorem main_prints_one_result (argv : list string) (st : Sys W) :
  nth_error argv 1 <> Some "--info" ->
  (forall p w, returned (fst (os_path_exists caps p w)) = true) ->
  exists r st',
    main caps icaps argv st
    = (inr (mkExit [PrintedResult r] (if success r then 0%Z else 1%Z)), st').
Proof.
  intros Hinfo Hexists. unfold main.
  destruct argv as [|prog [|audio_file rest]];
    [eexists (Failed _), _; reflexivity
    |eexists (Failed _), _; reflexivity|].
  cbn in Hinfo.
  destruct (String.eqb audio_file "--info") eqn:E.
  { apply String.eqb_eq in E. subst. now destruct Hinfo. }
  unfold bind at 1. unfold call at 1.
  specialize (Hexists audio_file (world st)).
  destruct (os_path_exists caps audio_file (world st)) as [[e|found] w1];
    [discriminate Hexists|].
  destruct found; cbn [negb];
    [|eexists (Failed _), _; reflexivity].
  unfold bind.
  destruct (main_with_service_run audio_file
              (after st (PathExists audio_file) w1))
    as [(e & st' & -> & _)|(r & st0 & st1 & _ & _ & _ & ->)].
  - eexists (Failed _), _. reflexivity.
  - eexists r, _. reflexivity.
Qed.

(** X21. [main] turns away a missing argument or a missing file before it
    constructs anything: it exits with code 1 having printed "No audio file
    provided" or "Audio file not found: <path>", the service is untouched
    and the only call made is the existence probe of the file: torch and
    whisperx are not even imported. *)
Theorem main_rejects_before_construction
  (prog path : string) (rest : list string) (st : Sys W) (w1 : W) :
  main caps icaps [prog] st
  = (inr (mkExit [PrintedResult (Failed "No audio file provided")] 1), st)
  /\ (path <> "--info" ->
      os_path_exists caps path (world st) = (inr false, w1) ->
      main caps icaps (prog :: path :: rest) st
      = (inr (mkExit [PrintedResult
                        (Failed ("Audio file not found: " ++ path)%string)]
                1),
         mkSys (self st) w1 (trace st ++ [PathExists path]))).
Proof.
  split; [reflexivity|]. intros Hinfo H1. unfold main.
  apply String.eqb_neq in Hinfo. rewrite Hinfo.
  unfold bind, call. rewrite H1. reflexivity.
Qed.

(** X22. When the construction of the service fails (the device probe
    raises something other than an [ImportError]), [main] prints the
    failure "Unexpected error: <message>" and exits with code 1; nothing
    is transcribed. *)
Theorem main_reports_failed_construction
  (prog path : string) (rest : list string) (st st0 : Sys W) (w1 : W)
  (e : PyExc) :
  path <> "--info" ->
  os_path_exists caps path (world st) = (inr true, w1) ->
  __init__ caps (after st (PathExists path) w1) = (inl e, st0) ->
  main caps icaps (prog :: path :: rest) st
  = (inr (mkExit [PrintedResult
                    (Failed ("Unexpected error: " ++ exc_str e)%string)] 1),
     st0).
Proof.
  intros Hinfo H1 H2. unfold main.
  apply String.eqb_neq in Hinfo. rewrite Hinfo.
  unfold bind, call. rewrite H1. cbn [negb].
  unfold main_with_service. rewrite H2. reflexivity.
Qed.

(** X23. The release on the way out.  On a host where [import torch]
    always returns, a run of [main] on an existing file ends with a
    service that holds nothing, whether the transcription succeeded,
    failed or the construction itself failed; a finalizer run of
    [__del__] after that raises nothing and leaves it so. *)
Theorem main_releases_on_exit
  (prog path : string) (rest : list string) (st : Sys W) (w1 : W) :
  (forall w, exists w', torch_import caps w = (inr tt, w')) ->
  path <> "--info" ->
  os_path_exists caps path (world st) = (inr true, w1) ->
  let final := snd (main caps icaps (prog :: path :: rest) st) in
  is_empty (self final) = true
  /\ fst (__del__ caps final) = inr tt
  /\ is_empty (self (snd (__del__ caps final))) = true.
Proof.
  intros Htorch Hinfo H1 final.
  assert (Hfinal : is_empty (self final) = true).
  { unfold final, main.
    apply String.eqb_neq in Hinfo. rewrite Hinfo.
    unfold bind, call. rewrite H1. cbn [negb].
    destruct (main_with_service_run path (after st (PathExists path) w1))
      as [(e & st' & -> & Hinit)|(r & st0 & st1 & _ & _ & _ & ->)].
    - cbn.
      revert Hinit.
      unfold __init__, _setup_device, set_device, try_except, bind, call,
        ret, raise, put_self, get_self, after.
      run_all; cbn; intros Hinit; inversion Hinit; subst; reflexivity.
    - cbn. destruct (Htorch (world st1)) as (w' & Hw).
      exact (cleanup_releases caps st1 tt w' Hw). }
  split; [exact Hfinal|].
  unfold __del__, try_except.
  destruct (cleanup_never_raises caps final) as ([] & st' & E).
  pose proof (proj1 (cleanup_keeps_empty caps final Hfinal)) as Hk.
  rewrite E in Hk |- *. cbn in Hk |- *. now split.
Qed.

(** X24. "--info" constructs a service, prints its diagnostics and exits
    with code 0 without loading or releasing any model; the printed
    dictionary names the device that was selected.  When the construction
    or a probe raises, the exception is not caught: the process ends in a
    traceback with nothing printed. *)
Theorem main_info (prog : string) (rest : list string) (st : Sys W) :
  let run := main caps icaps (prog :: "--info" :: rest) st in
  is_empty (self (snd run)) = true
  /\ match fst run with
     | inr ex =>
         exit_code ex = 0%Z
         /\ exists info,
              printed ex = [PrintedInfo info]
              /\ dict_get "device" info
                 = Some (VDevice (device (self (snd run))))
              /\ exists d, device (self (snd run)) = Some d
     | inl _ => True
     end.
Proof.
  cbv zeta. unfold main. cbn [String.eqb Ascii.eqb Bool.eqb].
  unfold bind.
  pose proof (init_selects caps st) as Hsel.
  assert (Hempty : is_empty (self (snd (__init__ caps st))) = true).
  { unfold __init__, _setup_device, set_device, try_except, bind, call,
      ret, raise, put_self, get_self, after.
    run_all; reflexivity. }
  destruct (__init__ caps st) as [[e|[]] st0]; cbn in Hempty;
    [cbn; split; [exact Hempty | exact Logic.I]|].
  destruct Hsel as (d & Hd).
  pose proof (system_info_run st0) as (Hself & _ & Hinfo).
  destruct (get_system_info caps icaps st0) as [[e|info] st1];
    cbn in *; rewrite Hself; (split; [exact Hempty|]); [exact Logic.I|].
  split; [reflexivity|]. exists info. split; [reflexivity|].
  split; [exact (proj1 Hinfo) | now exists d].
Qed.

End CommandLine.

(** ** The cleanup demonstration script *)

Section Script.
Context {W : Type} (caps : Caps W).

Lemma load_model_true_holds (model_size : string) (st st' : Sys W) :
  load_model caps model_size st = (inr true, st') ->
  model (self st') <> None.
Proof.
  pose proof (load_model_run caps model_size st) as Hrun. cbv zeta in Hrun.
  destruct (whisperx_import caps (world st)) as [[e|u] w1];
    [rewrite Hrun; discriminate|].
  destruct (whisperx_load_model caps model_size _ w1) as [[e|m] w2];
    [rewrite Hrun; discriminate|].
  destruct (whisperx_load_align_model caps "en" _ w2) as [[e|am] w3];
    rewrite Hrun; intros H; inversion H; subst; cbn; discriminate.
Qed.

(** X25. [test_cleanup.py] on a host where [import torch] always returns:
    when the load succeeds the script reports the main model as loaded
    before the cleanup and both models as not loaded after it; it stops
    with [sys.exit(1)] exactly when [load_model] returned [False]. *)
Theorem test_cleanup_script_report (st : Sys W) :
  (forall w, exists w', torch_import caps w = (inr tt, w')) ->
  match fst (test_cleanup_script caps st) with
  | inr (Some report) =>
      main_loaded report = true
      /\ main_after_cleanup report = false
      /\ align_after_cleanup report = false
  | inr None =>
      fst (load_model caps "base" (snd (__init__ caps st))) = inr false
  | inl _ => fst (__init__ caps st) <> inr tt
  end.
Proof.
  intros Htorch. unfold test_cleanup_script. unfold bind at 1.
  destruct (__init__ caps st) as [[e|[]] st0]; [cbn; discriminate|].
  unfold bind at 1.
  destruct (load_model_never_raises caps "base" st0) as (b & st1 & El).
  rewrite El. cbn [snd fst].
  destruct b; cbn [negb]; [|cbn; now rewrite El].
  pose proof (load_model_true_holds "base" st0 st1 El) as Hm.
  unfold bind, get_self, ret.
  destruct (cleanup_never_raises caps st1) as ([] & st2 & Ec).
  destruct (Htorch (world st1)) as (w' & Hw).
  pose proof (cleanup_releases caps st1 tt w' Hw) as He.
  rewrite Ec in He |- *. cbn in He |- *.
  unfold is_empty in He.
  destruct (model (self st1)); [|now destruct Hm].
  destruct (model (self st2)); [discriminate He|].
  destruct (align_model (self st2)); [discriminate He|].
  now repeat split.
Qed.

End Script.

(** ** Worked runs for the properties above *)

Section MoreRuns.
Local Open Scope list_scope.

Let driver_error : PyExc := OtherException "CUDA driver error".

(** X1 on a CUDA machine. *)
Lemma setup_device_sound_run :
  exists w1 w2,
    torch_import (Host.caps (Host.gpu 0)) tt = (inr tt, w1)
    /\ cuda_is_available (Host.caps (Host.gpu 0)) w1 = (inr true, w2).
Proof.
  exact (setup_device_sound (Host.caps (Host.gpu 0)) (Host.fresh cpu)
           (snd (_setup_device (Host.caps (Host.gpu 0)) (Host.fresh cpu)))
           eq_refl).
Defined.

(** X2 on a CUDA machine and on the laptop without torch. *)
Lemma setup_device_prefers_cuda_run :
  device (self (snd (_setup_device (Host.caps (Host.gpu 0))
                       (Host.fresh cpu)))) = Some cuda
  /\ device (self (snd (_setup_device (Host.caps Host.no_torch)
                          (Host.fresh mps)))) = Some cpu.
Proof.
  split.
  - rewrite (proj1 (setup_device_prefers_cuda (Host.caps (Host.gpu 0))
                      (Host.fresh cpu)) tt tt tt "GPU 0"
               eq_refl eq_refl eq_refl).
    reflexivity.
  - rewrite (proj2 (setup_device_prefers_cuda (Host.caps Host.no_torch)
                      (Host.fresh mps)) tt "No module named 'torch'"
               eq_refl).
    reflexivity.
Defined.

(** X3 on a laptop whose CUDA probe fails. *)
Lemma init_propagates_probe_failure_run :
  fst (__init__ (Lab.caps Host.laptop
                   (Lab.failing Lab.is_cuda_probe driver_error))
         (Host.fresh cpu))
  = inl (OtherException "CUDA driver error").
Proof.
  exact (proj1 (init_propagates_probe_failure
                  (Lab.caps Host.laptop
                     (Lab.failing Lab.is_cuda_probe driver_error))
                  (Host.fresh cpu) tt tt "CUDA driver error"
                  eq_refl eq_refl)).
Defined.

(** X4 on the laptop without an alignment model, from a service that
    held one. *)
Lemma load_model_without_alignment_run :
  load_model (Host.caps Lab.unaligned) "small" Lab.aligned_ready
  = (inr true,
     mkSys (mkService (Some (mkModel 1 (Some "small"))) None None (Some cpu))
       tt [ImportWhisperx; LoadModel "small" (Some cpu);
           LoadAlignModel "en" (Some cpu)]).
Proof.
  apply (load_model_without_alignment (Host.caps Lab.unaligned) "small"
           Lab.aligned_ready tt tt tt (mkModel 1 (Some "small"))
           (OtherException "no alignment model"));
    reflexivity.
Defined.

(** X5 on the laptop. *)
Lemma alignment_handles_paired_run :
  paired (self (snd (transcribe_audio (Host.caps Host.laptop) "a.wav"
                       (Host.fresh cpu)))).
Proof.
  apply (proj2 (alignment_handles_paired (Host.caps Host.laptop)
                  (Host.fresh cpu) "base" "a.wav")).
  split; reflexivity.
Defined.

(** X6 on the laptop. *)
Lemma transcribe_audio_keeps_loaded_service_run :
  self (snd (transcribe_audio (Host.caps Host.laptop) "a.wav"
               Lab.aligned_ready))
  = self Lab.aligned_ready.
Proof.
  apply transcribe_audio_keeps_loaded_service. discriminate.
Defined.

(** X7 on the laptop whose recording decodes to nothing. *)
Lemma transcribe_undecodable_audio_run :
  exists st',
    transcribe_audio (Host.caps Lab.mute) "a.wav" (Host.fresh cpu)
    = (inr (Failed "Could not load audio data"), st').
Proof.
  eexists.
  eapply (transcribe_undecodable_audio (Host.caps Lab.mute) "a.wav"
            (Host.fresh cpu));
    [ reflexivity | reflexivity | discriminate | reflexivity | reflexivity
    | reflexivity | reflexivity ].
Defined.

(** X8 on a laptop whose decoder is missing. *)
Lemma transcribe_decode_raises_run :
  exists st',
    transcribe_audio
      (Lab.caps Host.laptop
         (Lab.failing Lab.is_load_audio (OtherException "ffmpeg not found")))
      "a.wav" (Host.fresh cpu)
    = (inr (Failed "Transcription failed: ffmpeg not found"), st').
Proof.
  eexists.
  eapply (transcribe_decode_raises
            (Lab.caps Host.laptop
               (Lab.failing Lab.is_load_audio
                  (OtherException "ffmpeg not found")))
            "a.wav" (Host.fresh cpu) _ _ _ _ _ _ _ _ _ _ _
            (OtherException "ffmpeg not found")).
  Unshelve.
  all: try reflexivity; try discriminate.
Defined.

(** X10 on a laptop whose alignment fails. *)
Lemma transcribe_alignment_failed_run :
  exists st',
    transcribe_audio
      (Lab.caps Host.laptop
         (Lab.failing Lab.is_align (OtherException "alignment failed")))
      "a.wav" (Host.fresh cpu)
    = (inr (Succeeded "Hello, world" 2 "en" "base" (Some cpu)), st').
Proof.
  eexists. etransitivity.
  - eapply (transcribe_alignment_failed
              (Lab.caps Host.laptop
                 (Lab.failing Lab.is_align
                    (OtherException "alignment failed")))
              "a.wav" (Host.fresh cpu));
      [ reflexivity | reflexivity | discriminate | reflexivity
      | reflexivity | reflexivity | discriminate | reflexivity
      | reflexivity | reflexivity | reflexivity | discriminate
      | reflexivity | reflexivity | discriminate | reflexivity ].
  - reflexivity.
Defined.

(** X11 on the laptop without an alignment model. *)
Lemma transcribe_unaligned_run :
  exists st',
    transcribe_audio (Host.caps Lab.unaligned) "a.wav" (Host.fresh cpu)
    = (inr (Succeeded "Hello, world" 2 "en" "base" (Some cpu)), st').
Proof.
  eexists. etransitivity.
  - eapply transcribe_unaligned;
      [ reflexivity | reflexivity | discriminate | reflexivity
      | reflexivity | reflexivity | discriminate | reflexivity
      | reflexivity | reflexivity | reflexivity | discriminate
      | reflexivity ].
  - reflexivity.
Defined.

(** X13 on the laptop with the French recording: the aligned answer names
    no language and the result says "en". *)
Lemma transcribe_aligned_run :
  exists st',
    transcribe_audio (Host.caps Lab.french) "a.wav" (Host.fresh cpu)
    = (inr (Succeeded "Bonjour!" 2 "en" "base" (Some cpu)), st').
Proof.
  eexists. etransitivity.
  - eapply (transcribe_aligned (Host.caps Lab.french) "a.wav"
              (Host.fresh cpu));
      [ reflexivity | reflexivity | discriminate | reflexivity
      | reflexivity | reflexivity | discriminate | reflexivity
      | reflexivity | reflexivity | reflexivity | discriminate
      | reflexivity | reflexivity | discriminate | reflexivity ].
  - reflexivity.
Defined.

(** X14 on the laptop. *)
Lemma batch_size_range_run :
  snd (_get_optimal_batch_size (Host.caps Host.laptop) (Host.fresh cpu))
  = Host.fresh cpu.
Proof.
  apply (proj2 (batch_size_range (Host.caps Host.laptop) (Host.fresh cpu))).
  reflexivity.
Defined.

(** X16 on a laptop whose garbage collection fails. *)
Lemma cleanup_stops_at_gc_failure_run :
  cleanup_models
    (Lab.caps Host.laptop (Lab.failing Lab.is_gc (OtherException "gc")))
    Lab.aligned_ready
  = (inr tt,
     mkSys (mkService None None None (Some cpu)) tt [ImportTorch; GcCollect]).
Proof.
  apply (cleanup_stops_at_gc_failure
           (Lab.caps Host.laptop (Lab.failing Lab.is_gc (OtherException "gc")))
           Lab.aligned_ready tt tt (OtherException "gc"));
    reflexivity.
Defined.

(** X17 on a CUDA machine whose cache cannot be cleared. *)
Lemma cleanup_stops_at_cache_failure_run :
  cleanup_models
    (Lab.caps (Host.gpu 0)
       (Lab.failing Lab.is_cuda_empty_cache driver_error))
    (Host.ready cuda "base")
  = (inr tt,
     mkSys (mkService None None None (Some cuda)) tt
       [ImportTorch; GcCollect; CudaIsAvailable; CudaEmptyCache]).
Proof.
  apply (cleanup_stops_at_cache_failure
           (Lab.caps (Host.gpu 0)
              (Lab.failing Lab.is_cuda_empty_cache driver_error))
           (Host.ready cuda "base") tt tt tt tt driver_error);
    reflexivity.
Defined.

(** X19 on the laptop without torch. *)
Lemma system_info_without_torch_run :
  fst (get_system_info (Host.caps Host.no_torch) Lab.info_caps
         (Host.fresh cpu))
  = inr [("device", VDevice (Some cpu)); ("python_version", VStr "3.11.4");
         ("platform", VStr "linux"); ("pytorch_available", VBool false);
         ("whisperx_available", VBool true)].
Proof.
  rewrite (system_info_without_torch (Host.caps Host.no_torch) Lab.info_caps
             (Host.fresh cpu) tt tt "No module named 'torch'" (inr tt)
             eq_refl eq_refl);
    [reflexivity | discriminate].
Defined.

(** X20 on the laptop. *)
Lemma main_prints_one_result_run :
  exists r st',
    main (Host.caps Host.laptop) Lab.info_caps
      ["whisperx_service.py"; "a.wav"] (Host.fresh cpu)
    = (inr (mkExit [PrintedResult r] (if success r then 0%Z else 1%Z)), st').
Proof.
  apply main_prints_one_result.
  - discriminate.
  - intros p []. reflexivity.
Defined.

(** X21 on the laptop. *)
Lemma main_rejects_before_construction_run :
  main (Host.caps Host.laptop) Lab.info_caps
    ["whisperx_service.py"; "missing.wav"] (Host.fresh cpu)
  = (inr (mkExit [PrintedResult
                    (Failed "Audio file not found: missing.wav")] 1),
     mkSys (self (Host.fresh cpu)) tt [PathExists "missing.wav"]).
Proof.
  apply (proj2 (main_rejects_before_construction (Host.caps Host.laptop)
                  Lab.info_caps "whisperx_service.py" "missing.wav" []
                  (Host.fresh cpu) tt));
    [discriminate | reflexivity].
Defined.

(** X22 on a laptop whose CUDA probe fails. *)
Lemma main_reports_failed_construction_run :
  fst (main (Lab.caps Host.laptop
               (Lab.failing Lab.is_cuda_probe driver_error))
         Lab.info_caps ["whisperx_service.py"; "a.wav"] (Host.fresh cpu))
  = inr (mkExit [PrintedResult
                   (Failed "Unexpected error: CUDA driver error")] 1).
Proof.
  erewrite (main_reports_failed_construction
              (Lab.caps Host.laptop
                 (Lab.failing Lab.is_cuda_probe driver_error))
              Lab.info_caps "whisperx_service.py" "a.wav" []
              (Host.fresh cpu) _ tt driver_error);
    [reflexivity | discriminate | reflexivity | reflexivity].
Defined.

(** X23 on the laptop. *)
Lemma main_releases_on_exit_run :
  is_empty (self (snd (main (Host.caps Host.laptop) Lab.info_caps
                         ["whisperx_service.py"; "a.wav"]
                         (Host.fresh cpu)))) = true.
Proof.
  apply (main_releases_on_exit (Host.caps Host.laptop) Lab.info_caps
           "whisperx_service.py" "a.wav" [] (Host.fresh cpu) tt).
  - intros []. now exists tt.
  - discriminate.
  - reflexivity.
Defined.

(** X25 on the laptop. *)
Lemma test_cleanup_script_report_run :
  match fst (test_cleanup_script (Host.caps Host.laptop) (Host.fresh cpu))
  with
  | inr (Some report) =>
      main_loaded report = true
      /\ main_after_cleanup report = false
      /\ align_after_cleanup report = false
  | inr None =>
      fst (load_model (Host.caps Host.laptop) "base"
             (snd (__init__ (Host.caps Host.laptop) (Host.fresh cpu))))
      = inr false
  | inl _ =>
      fst (__init__ (Host.caps Host.laptop) (Host.fresh cpu)) <> inr tt
  end.
Proof.
  apply (test_cleanup_script_report (Host.caps Host.laptop)
           (Host.fresh cpu)).
  intros []. now exists tt.
Defined.

End MoreRuns.
